(** * Adaptive sliding-window anomaly detector (src/app.py)

    A shallow embedding of [AdaptiveAnomalyDetector]: the bounded
    [collections.deque] it keeps, [update_window] and [is_anomaly], with
    the detector state passed explicitly.

    The arithmetic the class performs ([np.mean], [np.std], [abs], [-],
    [*], [>]) is taken through an interface, [PyNum], with two instances:
    - [float], the kernel's IEEE 754 binary64 numbers, which are the
      numbers Python computes with; this instance runs, and it has the
      non-finite values [nan] and [infinity];
    - [R], exact real arithmetic: the formulas without rounding.  A
      statement over [R] is a statement about the program only where it
      says so and rounding cannot change it.

    What holds for every instance of [PyNum] holds for the binary64
    program. *)

From Stdlib Require Import ZArith List Lia Bool.
From Stdlib Require Import Reals Lra.
From Stdlib Require Import PrimFloat.
From Stdlib Require FloatAxioms SpecFloat FloatOps.
From Stdlib Require Uint63.
From Stdlib Require String.
Import String.StringSyntax.
Delimit Scope string_scope with string.
Import ListNotations.

(** ** Numbers *)

(** The operations of a Python/NumPy float that the detector uses.
    [of_nat] is the conversion of a length to a float that the division
    in [np.mean] performs. *)
Class PyNum (V : Type) := {
  add : V -> V -> V;
  sub : V -> V -> V;
  mul : V -> V -> V;
  div : V -> V -> V;
  sqrt : V -> V;
  abs : V -> V;
  gtb : V -> V -> bool;
  of_nat : nat -> V
}.

(** [x > y] on real numbers, as a boolean. *)
Definition Rgtb (x y : R) : bool :=
  if Rlt_dec y x then true else false.

(** Exact reals: the arithmetic of the formulas, without rounding,
    overflow or [nan]. *)
#[export] Instance R_PyNum : PyNum R := {
  add := Rplus;
  sub := Rminus;
  mul := Rmult;
  div := Rdiv;
  sqrt := R_sqrt.sqrt;
  abs := Rabs;
  gtb := Rgtb;
  of_nat := INR
}.

(** Binary64 floats. *)
#[export] Instance float_PyNum : PyNum float := {
  add := PrimFloat.add;
  sub := PrimFloat.sub;
  mul := PrimFloat.mul;
  div := PrimFloat.div;
  sqrt := PrimFloat.sqrt;
  abs := PrimFloat.abs;
  gtb := fun x y => PrimFloat.ltb y x;
  of_nat := fun n => PrimFloat.of_uint63 (Uint63.of_Z (Z.of_nat n))
}.

(** ** Exceptions *)

(** The exceptions the modelled code can end in.  [deque] refuses a
    [maxlen] that does not fit a C [Py_ssize_t] with [OverflowError], and
    a negative one with [ValueError]. *)
Inductive exn : Type :=
| ValueError
| OverflowError.

(** The bounds of [Py_ssize_t] on a 64-bit platform. *)
Definition PY_SSIZE_T_MAX : Z := 2 ^ 63 - 1.
Definition PY_SSIZE_T_MIN : Z := - 2 ^ 63.

(** ** [collections.deque(maxlen=...)] *)

Module Deque.

(** [deque(maxlen=maxlen)]: an empty deque, unless [maxlen] is refused. *)
Definition new {A : Type} (maxlen : Z) : exn + list A :=
  if ((maxlen <? PY_SSIZE_T_MIN) || (PY_SSIZE_T_MAX <? maxlen))%Z
  then inl OverflowError
  else if (maxlen <? 0)%Z then inl ValueError
  else inr [].

(** [deque.append] on a deque of bound [maxlen]: the element goes to the
    right end, and when the deque then holds more than [maxlen] elements
    one is dropped from the left end.  The head of the list is the
    oldest element. *)
Definition append {A : Type} (maxlen : Z) (d : list A) (x : A) : list A :=
  let d' := d ++ [x] in
  if (maxlen <? Z.of_nat (length d'))%Z then tl d' else d'.

End Deque.

(** ** NumPy reductions *)

Section Reductions.
Context {V : Type} `{PyNum V}.

(** [np.add.reduce]: the sum, from the identity 0. *)
Definition np_sum (xs : list V) : V :=
  fold_left add xs (of_nat 0).

(** [np.mean(xs)]: the sum divided by the number of elements. *)
Definition np_mean (xs : list V) : V :=
  div (np_sum xs) (of_nat (length xs)).

(** [np.std(xs)], with the default [ddof=0]: the square root of the mean
    of the squared deviations from the mean. *)
Definition np_std (xs : list V) : V :=
  let m := np_mean xs in
  let dev := map (fun x => sub x m) xs in
  sqrt (div (np_sum (map (fun x => mul x x) dev)) (of_nat (length xs))).

End Reductions.

(** ** The detector *)

Record detector (V : Type) : Type := mkDetector {
  window_size : Z;
  sensitivity : V;
  values : list V
}.

Arguments mkDetector {V} _ _ _.
Arguments window_size {V} _.
Arguments sensitivity {V} _.
Arguments values {V} _.

Section Detector.
Context {V : Type} `{PyNum V}.

(** [AdaptiveAnomalyDetector.__init__]. *)
Definition init (window_size : Z) (sensitivity : V) : exn + detector V :=
  match Deque.new window_size with
  | inl e => inl e
  | inr values => inr (mkDetector window_size sensitivity values)
  end.

(** The detector with its window replaced. *)
Definition set_values (d : detector V) (vs : list V) : detector V :=
  mkDetector (window_size d) (sensitivity d) vs.

(** [self.values.append(value)]. *)
Definition push (d : detector V) (value : V) : detector V :=
  set_values d (Deque.append (window_size d) (values d) value).

(** [update_window]: the value is appended first, the statistics are
    those of the window that results. *)
Definition update_window (d : detector V) (value : V) : (V * V) * detector V :=
  let d' := push d value in
  let avg := np_mean (values d') in
  let std_dev := np_std (values d') in
  ((avg, std_dev), d').

(** [is_anomaly]. *)
Definition is_anomaly (d : detector V) (value : V) : bool * detector V :=
  if (Z.of_nat (length (values d)) <? window_size d)%Z then
    (false, push d value)
  else
    let '((avg, std_dev), d') := update_window d value in
    let threshold := mul (sensitivity d) std_dev in
    (gtb (abs (sub value avg)) threshold, d').

(** A run of [is_anomaly] over a stream, oldest call first: the results
    of the calls and the detector they leave. *)
Fixpoint feed (d : detector V) (xs : list V) : list bool * detector V :=
  match xs with
  | [] => ([], d)
  | x :: xs' =>
      let '(b, d') := is_anomaly d x in
      let '(bs, d'') := feed d' xs' in
      (b :: bs, d'')
  end.

End Detector.

(** A fresh detector fed a stream; an [exn] when construction fails. *)
Definition run {V : Type} `{PyNum V} (window_size : Z) (sensitivity : V)
    (xs : list V) : exn + (list bool * detector V) :=
  match init window_size sensitivity with
  | inl e => inl e
  | inr d => inr (feed d xs)
  end.

(** ** The decision rule as the specification words it

    The statistics are those of the window before the value enters it. *)
Definition classify_spec {V : Type} `{PyNum V} (d : detector V) (value : V)
    : bool * detector V :=
  if (Z.of_nat (length (values d)) <? window_size d)%Z then
    (false, push d value)
  else
    let avg := np_mean (values d) in
    let std_dev := np_std (values d) in
    let threshold := mul (sensitivity d) std_dev in
    (gtb (abs (sub value avg)) threshold, push d value).

(** ** Auxiliary notions for the statements *)

(** The [n] most recent elements of a stream, oldest first. *)
Definition recent {A : Type} (n : nat) (xs : list A) : list A :=
  skipn (length xs - n) xs.

(** The sum of a list of reals, from the right. *)
Definition Rsum (xs : list R) : R := fold_right Rplus 0%R xs.

(** The squared deviations of [xs] from [m]. *)
Definition sqdev (m : R) (xs : list R) : list R :=
  map (fun x => ((x - m) * (x - m))%R) xs.

(** The results of a run, [None] when construction failed. *)
Definition results {V : Type} `{PyNum V} (window_size : Z) (sensitivity : V)
    (xs : list V) : option (list bool) :=
  match run window_size sensitivity xs with
  | inl _ => None
  | inr (bs, _) => Some bs
  end.


(** ** The sample source: [DataStreamSimulator]

    Over exact reals.  The random numbers a call draws are taken as its
    input, in the order the call draws them. *)

Module DataStreamSimulator.

Record state : Type := mk {
  seasonal_pattern : String.string;
  noise_level : R;
  trend_rate : R;
  time_index : Z
}.

(** [DataStreamSimulator.__init__]. *)
Definition init (seasonal_pattern : String.string) (noise_level trend_rate : R)
    : state :=
  mk seasonal_pattern noise_level trend_rate 0.

(** [_generate_baseline]: the seasonal value of the hour, plus the trend. *)
Definition _generate_baseline (sim : state) : R :=
  let hour :=
    if String.eqb (seasonal_pattern sim) "daily"%string
    then (time_index sim mod 24)%Z else 0%Z in
  let baseline := (10 + 5 * sin (2 * PI * IZR hour / 24))%R in
  let trend := (trend_rate sim * IZR (time_index sim))%R in
  (baseline + trend)%R.

(** The element [np.random.choice] takes out of a list of three. *)
Inductive pick : Type := First | Second | Third.

(** What one call of [get_next_value] draws:
    [np.random.normal(0, noise_level)], [np.random.random()], and, when an
    anomaly is injected, [np.random.normal(0, 1)] and the pick of
    [np.random.choice]. *)
Record draws : Type := mkDraws {
  noise : R;
  uniform : R;
  gauss : R;
  chosen : pick
}.

(** [np.random.choice([a, b, c])]. *)
Definition np_random_choice (a b c : R) (p : pick) : R :=
  match p with
  | First => a
  | Second => b
  | Third => c
  end.

(** [self.time_index += 1]. *)
Definition advance (sim : state) : state :=
  mk (seasonal_pattern sim) (noise_level sim) (trend_rate sim)
     (time_index sim + 1).

(** [get_next_value].  [np.random.normal] refuses a negative scale with
    a [ValueError]; the simulator is then left as it was. *)
Definition get_next_value (sim : state) (rnd : draws) : exn + (R * state) :=
  let baseline := _generate_baseline sim in
  if Rlt_dec (noise_level sim) 0 then inl ValueError
  else
    let noise := noise rnd in
    if Rlt_dec (uniform rnd) (5 / 100) then
      let anomaly :=
        (baseline * np_random_choice 3 (1 / 10) (1 + gauss rnd) (chosen rnd))%R in
      inr (anomaly, advance sim)
    else
      inr ((baseline + noise)%R, advance sim).

(** Successive calls of [get_next_value], one per element of [rnds]. *)
Fixpoint stream (sim : state) (rnds : list draws) : exn + (list R * state) :=
  match rnds with
  | [] => inr ([], sim)
  | rnd :: rnds' =>
      match get_next_value sim rnd with
      | inl e => inl e
      | inr (v, sim') =>
          match stream sim' rnds' with
          | inl e => inl e
          | inr (vs, sim'') => inr (v :: vs, sim'')
          end
      end
  end.

End DataStreamSimulator.

(** ** The presenter: [StreamVisualizer]

    The three deques, and the data handed to the two plot lines by
    [set_data].  The drawing calls themselves are outside the model. *)

Module StreamVisualizer.

Record state (T V : Type) : Type := mk {
  history_size : Z;
  timestamps : list T;
  values : list V;
  anomalies : list (T * V);
  line : list T * list V;
  anomaly_scatter : list T * list V
}.

Arguments mk {T V} _ _ _ _ _ _.
Arguments history_size {T V} _.
Arguments timestamps {T V} _.
Arguments values {T V} _.
Arguments anomalies {T V} _.
Arguments line {T V} _.
Arguments anomaly_scatter {T V} _.

(** [StreamVisualizer.__init__]: three empty deques of bound
    [history_size], two empty plot lines. *)
Definition init {T V : Type} (history_size : Z) : exn + state T V :=
  match Deque.new history_size with
  | inl e => inl e
  | inr timestamps =>
      match Deque.new history_size with
      | inl e => inl e
      | inr values =>
          match Deque.new history_size with
          | inl e => inl e
          | inr anomalies =>
              inr (mk history_size timestamps values anomalies
                      ([], []) ([], []))
          end
      end
  end.

(** [update]. *)
Definition update {T V : Type} (vis : state T V) (timestamp : T) (value : V)
    (is_anomaly : bool) : state T V :=
  let h := history_size vis in
  let ts := Deque.append h (timestamps vis) timestamp in
  let vs := Deque.append h (values vis) value in
  let an :=
    if is_anomaly then Deque.append h (anomalies vis) (timestamp, value)
    else anomalies vis in
  let scatter :=
    match an with
    | [] => anomaly_scatter vis
    | _ :: _ => List.split an
    end in
  mk h ts vs an (ts, vs) scatter.

(** Successive calls of [update], one per point. *)
Definition updates {T V : Type} (vis : state T V)
    (points : list (T * V * bool)) : state T V :=
  fold_left (fun vis p => update vis (fst (fst p)) (snd (fst p)) (snd p))
    points vis.

End StreamVisualizer.

(** ** The driving loop: [main] *)

Module Main.

Record state (T : Type) : Type := mk {
  simulator : DataStreamSimulator.state;
  detector_ : detector R;
  visualizer : StreamVisualizer.state T R
}.

Arguments mk {T} _ _ _.
Arguments simulator {T} _.
Arguments detector_ {T} _.
Arguments visualizer {T} _.

(** The three components as [main] builds them. *)
Definition setup {T : Type} : exn + state T :=
  let simulator := DataStreamSimulator.init "daily"%string (2 / 10)%R (2 / 1000)%R in
  match init 50 (18 / 10)%R with
  | inl e => inl e
  | inr detector =>
      match StreamVisualizer.init 500 with
      | inl e => inl e
      | inr visualizer => inr (mk simulator detector visualizer)
      end
  end.

(** One turn of the [while True] loop: the draws of the simulator and the
    clock reading are the inputs of the turn. *)
Definition turn {T : Type} (st : state T)
    (rnd : DataStreamSimulator.draws) (timestamp : T) : exn + state T :=
  match DataStreamSimulator.get_next_value (simulator st) rnd with
  | inl e => inl e
  | inr (value, sim') =>
      let '(flag, det') := is_anomaly (detector_ st) value in
      inr (mk sim' det'
              (StreamVisualizer.update (visualizer st) timestamp value flag))
  end.

(** The first turns of the loop, one per input. *)
Fixpoint turns {T : Type} (st : state T)
    (inputs : list (DataStreamSimulator.draws * T)) : exn + state T :=
  match inputs with
  | [] => inr st
  | (rnd, timestamp) :: inputs' =>
      match turn st rnd timestamp with
      | inl e => inl e
      | inr st' => turns st' inputs'
      end
  end.

(** [main], stopped after the turns of [inputs]. *)
Definition main {T : Type} (inputs : list (DataStreamSimulator.draws * T))
    : exn + state T :=
  match setup with
  | inl e => inl e
  | inr st => turns st inputs
  end.

End Main.

(** ** Auxiliary notions for the presenter and the loop *)

(** The points of a stream that were flagged, in order. *)
Definition flagged {T V : Type} (points : list (T * V * bool)) : list (T * V) :=
  map fst (filter snd points).

(** The points that [main] hands to the presenter: clock readings, values
    and answers, turn by turn. *)
Definition points_of {T V : Type} (ts : list T) (vs : list V) (bs : list bool)
    : list (T * V * bool) :=
  combine (combine ts vs) bs.

(** What the presenter holds once it has been given the points of
    [hist]: the most recent clock readings and values, the most recent
    flagged points, and the plot lines made of them. *)
Definition shows {T V : Type} (vis : StreamVisualizer.state T V)
    (hist : list (T * V * bool)) : Prop :=
  let n := Z.to_nat (StreamVisualizer.history_size vis) in
  StreamVisualizer.timestamps vis = recent n (map (fun p => fst (fst p)) hist) /\
  StreamVisualizer.values vis = recent n (map (fun p => snd (fst p)) hist) /\
  StreamVisualizer.anomalies vis = recent n (flagged hist) /\
  StreamVisualizer.line vis
  = (StreamVisualizer.timestamps vis, StreamVisualizer.values vis) /\
  StreamVisualizer.anomaly_scatter vis
  = List.split (StreamVisualizer.anomalies vis).

(** * Properties *)

(** Arithmetic that involves the bounds of [Py_ssize_t]. *)
Ltac size := unfold PY_SSIZE_T_MAX, PY_SSIZE_T_MIN in *; lia.

(** ** The deque *)

Module DequeFacts.

Lemma new_ok {A : Type} (maxlen : Z) :
  (0 <= maxlen)%Z -> (maxlen <= PY_SSIZE_T_MAX)%Z ->
  Deque.new (A := A) maxlen = inr [].
Proof.
  intros Hnn Hmax. unfold Deque.new.
  destruct (Z.ltb_spec maxlen PY_SSIZE_T_MIN); [size |].
  destruct (Z.ltb_spec PY_SSIZE_T_MAX maxlen); [size |].
  destruct (Z.ltb_spec maxlen 0); [lia | reflexivity].
Qed.

Lemma new_negative {A : Type} (maxlen : Z) :
  (PY_SSIZE_T_MIN <= maxlen)%Z -> (maxlen < 0)%Z ->
  Deque.new (A := A) maxlen = inl ValueError.
Proof.
  intros Hmin Hneg. unfold Deque.new.
  destruct (Z.ltb_spec maxlen PY_SSIZE_T_MIN); [size |].
  destruct (Z.ltb_spec PY_SSIZE_T_MAX maxlen); [size |].
  destruct (Z.ltb_spec maxlen 0); [reflexivity | lia].
Qed.

Lemma new_overflow {A : Type} (maxlen : Z) :
  (maxlen < PY_SSIZE_T_MIN \/ PY_SSIZE_T_MAX < maxlen)%Z ->
  Deque.new (A := A) maxlen = inl OverflowError.
Proof.
  intros Hout. unfold Deque.new.
  destruct (Z.ltb_spec maxlen PY_SSIZE_T_MIN); [reflexivity |].
  destruct (Z.ltb_spec PY_SSIZE_T_MAX maxlen); [reflexivity | lia].
Qed.

Lemma append_below {A : Type} (maxlen : Z) (d : list A) (x : A) :
  (Z.of_nat (length d) < maxlen)%Z ->
  Deque.append maxlen d x = d ++ [x].
Proof.
  intros Hlt. unfold Deque.append. cbv zeta.
  rewrite length_app, Nat.add_1_r.
  destruct (Z.ltb_spec maxlen (Z.of_nat (S (length d)))); [lia | reflexivity].
Qed.

Lemma append_full {A : Type} (maxlen : Z) (d : list A) (x : A) :
  (maxlen <= Z.of_nat (length d))%Z ->
  Deque.append maxlen d x = tl (d ++ [x]).
Proof.
  intros Hle. unfold Deque.append. cbv zeta.
  rewrite length_app, Nat.add_1_r.
  destruct (Z.ltb_spec maxlen (Z.of_nat (S (length d)))); [reflexivity | lia].
Qed.

Lemma append_full_cons {A : Type} (maxlen : Z) (o : A) (d : list A) (x : A) :
  (maxlen <= Z.of_nat (length (o :: d)))%Z ->
  Deque.append maxlen (o :: d) x = d ++ [x].
Proof. intros Hle. rewrite append_full by exact Hle. reflexivity. Qed.

Lemma append_length {A : Type} (maxlen : Z) (d : list A) (x : A) :
  (0 < maxlen)%Z -> (Z.of_nat (length d) <= maxlen)%Z ->
  length (Deque.append maxlen d x) = Nat.min (S (length d)) (Z.to_nat maxlen).
Proof.
  intros Hpos Hle.
  destruct (Z.eq_dec (Z.of_nat (length d)) maxlen) as [Heq | Hne].
  - rewrite append_full by lia.
    destruct d as [| o d]; [cbn [length] in Heq; lia |].
    cbn [tl app]. rewrite length_app. cbn [length] in *. lia.
  - rewrite append_below by lia.
    rewrite length_app. cbn [length]. lia.
Qed.

Lemma tl_skipn {A : Type} (k : nat) (l : list A) :
  tl (skipn k l) = skipn (S k) l.
Proof.
  revert l. induction k as [| k IH]; intros [| y l]; try reflexivity.
  change (skipn (S k) (y :: l)) with (skipn k l).
  change (skipn (S (S k)) (y :: l)) with (skipn (S k) l).
  apply IH.
Qed.

(** Appending to a window that holds the most recent elements of a
    stream gives the most recent elements of the extended stream. *)
Lemma append_recent {A : Type} (maxlen : Z) (xs : list A) (x : A) :
  (0 < maxlen)%Z ->
  Deque.append maxlen (recent (Z.to_nat maxlen) xs) x
  = recent (Z.to_nat maxlen) (xs ++ [x]).
Proof.
  intros Hpos. unfold recent.
  rewrite length_app, Nat.add_1_r.
  assert (Happ : forall k, (k <= length xs)%nat ->
                   skipn k xs ++ [x] = skipn k (xs ++ [x])).
  { intros k Hk. rewrite skipn_app.
    replace (k - length xs)%nat with 0%nat by lia. reflexivity. }
  destruct (Nat.le_gt_cases (Z.to_nat maxlen) (length xs)) as [Hfull | Hwarm].
  - rewrite append_full by (rewrite length_skipn; lia).
    rewrite Happ by lia. rewrite tl_skipn. f_equal. lia.
  - rewrite append_below by (rewrite length_skipn; lia).
    rewrite Happ by lia. f_equal. lia.
Qed.

End DequeFacts.

(** ** The detector's window, for any number type *)

Section Window.
Context {V : Type} `{PyNum V}.

Lemma init_ok (w : Z) (s : V) :
  (0 <= w)%Z -> (w <= PY_SSIZE_T_MAX)%Z ->
  init w s = inr (mkDetector w s []).
Proof.
  intros Hw Hmax. unfold init. now rewrite DequeFacts.new_ok.
Qed.

Lemma init_negative (w : Z) (s : V) :
  (PY_SSIZE_T_MIN <= w)%Z -> (w < 0)%Z -> init w s = inl ValueError.
Proof.
  intros Hmin Hw. unfold init. now rewrite DequeFacts.new_negative.
Qed.

Lemma init_overflow (w : Z) (s : V) :
  (w < PY_SSIZE_T_MIN \/ PY_SSIZE_T_MAX < w)%Z ->
  init w s = inl OverflowError.
Proof.
  intros Hout. unfold init. now rewrite DequeFacts.new_overflow.
Qed.

Lemma run_ok (w : Z) (s : V) (xs : list V) :
  (0 <= w)%Z -> (w <= PY_SSIZE_T_MAX)%Z ->
  run w s xs = inr (feed (mkDetector w s []) xs).
Proof.
  intros Hw Hmax. unfold run. now rewrite init_ok.
Qed.

(** Both branches of [is_anomaly] leave the detector that one
    [deque.append] gives. *)
Lemma is_anomaly_state (d : detector V) (v : V) :
  snd (is_anomaly d v) = push d v.
Proof.
  unfold is_anomaly, update_window.
  destruct (Z.of_nat (length (values d)) <? window_size d)%Z; reflexivity.
Qed.

Lemma is_anomaly_warm (d : detector V) (v : V) :
  (Z.of_nat (length (values d)) < window_size d)%Z ->
  is_anomaly d v = (false, set_values d (values d ++ [v])).
Proof.
  intros Hlt. unfold is_anomaly, push.
  destruct (Z.ltb_spec (Z.of_nat (length (values d))) (window_size d)); [| lia].
  rewrite DequeFacts.append_below by exact Hlt. reflexivity.
Qed.

Lemma is_anomaly_full (d : detector V) (v : V) :
  (window_size d <= Z.of_nat (length (values d)))%Z ->
  let w' := tl (values d ++ [v]) in
  is_anomaly d v
  = (gtb (abs (sub v (np_mean w'))) (mul (sensitivity d) (np_std w')),
     set_values d w').
Proof.
  intros Hle w'. unfold is_anomaly, update_window, push.
  destruct (Z.ltb_spec (Z.of_nat (length (values d))) (window_size d)); [lia |].
  rewrite DequeFacts.append_full by exact Hle. reflexivity.
Qed.

Lemma feed_app (d : detector V) (xs ys : list V) :
  feed d (xs ++ ys)
  = (fst (feed d xs) ++ fst (feed (snd (feed d xs)) ys),
     snd (feed (snd (feed d xs)) ys)).
Proof.
  revert d. induction xs as [| x xs IH]; intros d.
  - cbn [app feed fst snd]. destruct (feed d ys); reflexivity.
  - cbn [app feed]. destruct (is_anomaly d x) as [b d1].
    rewrite IH. destruct (feed d1 xs) as [bs d2]. cbn [fst snd].
    destruct (feed d2 ys); reflexivity.
Qed.

Lemma feed_results_length (d : detector V) (xs : list V) :
  length (fst (feed d xs)) = length xs.
Proof.
  revert d. induction xs as [| x xs IH]; intros d; [reflexivity |].
  cbn [feed]. destruct (is_anomaly d x) as [b d1].
  specialize (IH d1). destruct (feed d1 xs). cbn [fst length] in *.
  now rewrite IH.
Qed.

(** The window of a detector that has seen the stream [hist] holds its
    most recent elements, and keeps doing so. *)
Lemma feed_recent (d : detector V) (hist xs : list V) :
  (0 < window_size d)%Z ->
  values d = recent (Z.to_nat (window_size d)) hist ->
  let d' := snd (feed d xs) in
  window_size d' = window_size d /\ sensitivity d' = sensitivity d /\
  values d' = recent (Z.to_nat (window_size d)) (hist ++ xs).
Proof.
  revert d hist. induction xs as [| x xs IH]; intros d hist Hpos Hwin.
  - cbn. rewrite app_nil_r. auto.
  - cbn [feed].
    pose proof (is_anomaly_state d x) as Hst.
    destruct (is_anomaly d x) as [b d1]. cbn [snd] in Hst. subst d1.
    specialize (IH (push d x) (hist ++ [x])).
    destruct (feed (push d x) xs) as [bs d2]. cbn [snd] in *.
    cbn [push set_values window_size sensitivity values] in IH.
    rewrite Hwin, DequeFacts.append_recent in IH by exact Hpos.
    rewrite <- app_assoc in IH. apply IH; [exact Hpos | reflexivity].
Qed.

Lemma recent_length {A : Type} (n : nat) (xs : list A) :
  length (recent n xs) = Nat.min (length xs) n.
Proof. unfold recent. rewrite length_skipn. lia. Qed.

(** A fresh detector after a stream. *)
Lemma fresh_feed (w : Z) (s : V) (xs : list V) :
  (0 < w)%Z ->
  snd (feed (mkDetector w s []) xs)
  = mkDetector w s (recent (Z.to_nat w) xs).
Proof.
  intros Hpos.
  destruct (feed_recent (mkDetector w s []) [] xs Hpos eq_refl)
    as (Hw & Hs & Hv).
  destruct (snd (feed (mkDetector w s []) xs)) as [w' s' vs'].
  cbn in Hw, Hs, Hv. subst. reflexivity.
Qed.

(** While the window is not full, every call answers [False]. *)
Lemma feed_warm (d : detector V) (xs : list V) :
  (Z.of_nat (length (values d) + length xs) <= window_size d)%Z ->
  fst (feed d xs) = repeat false (length xs).
Proof.
  revert d. induction xs as [| x xs IH]; intros d Hle; [reflexivity |].
  cbn [feed length] in *.
  rewrite is_anomaly_warm by lia.
  specialize (IH (set_values d (values d ++ [x]))).
  destruct (feed (set_values d (values d ++ [x])) xs) as [bs d2].
  cbn [fst repeat] in *. f_equal. apply IH.
  cbn [set_values values window_size]. rewrite length_app. cbn [length]. lia.
Qed.

End Window.

(** ** Warm-up, window bound, growth *)

(** C7: while the window holds fewer than [window_size] values,
    [is_anomaly] appends the value to the window, evicting nothing, and
    answers [False], whatever the value is. *)
Theorem warm_up_appends_and_answers_false
    {V : Type} `{PyNum V} (d : detector V) (value : V) :
  (Z.of_nat (length (values d)) < window_size d)%Z ->
  is_anomaly d value = (false, set_values d (values d ++ [value])).
Proof. apply is_anomaly_warm. Qed.

Lemma warm_up_appends_and_answers_false_witness :
  (Z.of_nat (length (values (mkDetector 3 2%float [10%float]))) < 3)%Z /\
  is_anomaly (mkDetector 3 2%float [10%float]) 1000000%float
  = (false, mkDetector 3 2%float [10%float; 1000000%float]).
Proof.
  split; [cbn; lia |].
  apply (warm_up_appends_and_answers_false
           (mkDetector 3 2%float [10%float]) 1000000%float).
  cbn; lia.
Defined.

(** C8: for a positive [window_size] that [deque] accepts, the window
    of a fresh detector never holds more than [window_size] values;
    after [window_size] calls or more it holds exactly the [window_size]
    most recent values of the stream, oldest first; and a call on a full
    window drops the oldest value and puts the new one last. *)
Theorem window_bound_invariant
    {V : Type} `{PyNum V} (w : Z) (s : V) (xs : list V) :
  (0 < w)%Z ->
  (w <= PY_SSIZE_T_MAX)%Z ->
  exists bs d,
    run w s xs = inr (bs, d) /\
    (Z.of_nat (length (values d)) <= w)%Z /\
    ((w <= Z.of_nat (length xs))%Z ->
       Z.of_nat (length (values d)) = w /\
       values d = skipn (length xs - Z.to_nat w) xs /\
       forall v, exists oldest rest,
         values d = oldest :: rest /\
         values (snd (is_anomaly d v)) = rest ++ [v]).
Proof.
  intros Hpos Hmax. rewrite run_ok by lia.
  pose proof (fresh_feed w s xs Hpos) as Hd.
  destruct (feed (mkDetector w s []) xs) as [bs d]. cbn [snd] in Hd. subst d.
  exists bs, (mkDetector w s (recent (Z.to_nat w) xs)).
  cbn [values]. split; [reflexivity |]. split.
  - rewrite recent_length. lia.
  - intros Hfull. split; [rewrite recent_length; lia |].
    split; [reflexivity |]. intros v.
    destruct (recent (Z.to_nat w) xs) as [| o rest] eqn:Hr.
    + apply (f_equal (@length V)) in Hr. rewrite recent_length in Hr.
      cbn [length] in Hr. lia.
    + exists o, rest. split; [reflexivity |].
      rewrite is_anomaly_state. cbn [push set_values values window_size].
      apply DequeFacts.append_full_cons.
      apply (f_equal (@length V)) in Hr. rewrite recent_length in Hr. lia.
Qed.

Lemma window_bound_invariant_witness :
  (0 < 3)%Z /\
  exists bs d,
    run 3 2%float [1; 2; 3; 4; 5]%float = inr (bs, d) /\
    (Z.of_nat (length (values d)) <= 3)%Z /\
    ((3 <= Z.of_nat (length [1; 2; 3; 4; 5]%float))%Z ->
       Z.of_nat (length (values d)) = 3%Z /\
       values d = skipn (length [1; 2; 3; 4; 5]%float - Z.to_nat 3)
                    [1; 2; 3; 4; 5]%float /\
       forall v, exists oldest rest,
         values d = oldest :: rest /\
         values (snd (is_anomaly d v)) = rest ++ [v]).
Proof.
  split; [lia |].
  apply (window_bound_invariant 3 2%float [1; 2; 3; 4; 5]%float);
    [lia | size].
Defined.

(** C10: every call of [is_anomaly], warm-up or not, puts its value at
    the end of the window and keeps what was there, all of it while the
    window is not full, all but the oldest value once it is: exactly one
    element is appended.  On a fresh detector with [window_size] at least
    1 the window therefore holds [min n window_size] values after [n]
    calls, [n] of them throughout warm-up. *)
Theorem per_call_growth
    {V : Type} `{PyNum V} (w : Z) (s : V) (xs : list V) :
  (1 <= w)%Z ->
  (w <= PY_SSIZE_T_MAX)%Z ->
  exists bs d,
    run w s xs = inr (bs, d) /\
    length bs = length xs /\
    length (values d) = Nat.min (length xs) (Z.to_nat w) /\
    forall v,
      values (snd (is_anomaly d v))
      = (if (Z.of_nat (length xs) <? w)%Z then values d else tl (values d))
        ++ [v] /\
      length (values (snd (is_anomaly d v)))
      = Nat.min (S (length xs)) (Z.to_nat w).
Proof.
  intros Hpos Hmax. rewrite run_ok by lia.
  pose proof (fresh_feed w s xs ltac:(lia)) as Hd.
  pose proof (feed_results_length (mkDetector w s []) xs) as Hlen.
  destruct (feed (mkDetector w s []) xs) as [bs d].
  cbn [fst snd] in Hd, Hlen. subst d.
  exists bs, (mkDetector w s (recent (Z.to_nat w) xs)).
  cbn [values]. split; [reflexivity |]. split; [exact Hlen |].
  split; [apply recent_length |]. intros v.
  rewrite is_anomaly_state. cbn [push set_values values window_size].
  assert (Hwin :
    Deque.append w (recent (Z.to_nat w) xs) v
    = (if (Z.of_nat (length xs) <? w)%Z then recent (Z.to_nat w) xs
       else tl (recent (Z.to_nat w) xs)) ++ [v]).
  { destruct (Z.ltb_spec (Z.of_nat (length xs)) w) as [Hwarm | Hfull].
    - apply DequeFacts.append_below. rewrite recent_length. lia.
    - destruct (recent (Z.to_nat w) xs) as [| o rest] eqn:Hr.
      + apply (f_equal (@length V)) in Hr. rewrite recent_length in Hr.
        cbn [length] in Hr. lia.
      + cbn [tl]. apply DequeFacts.append_full_cons.
        apply (f_equal (@length V)) in Hr. rewrite recent_length in Hr.
        lia. }
  split; [exact Hwin |].
  rewrite DequeFacts.append_length by (rewrite ?recent_length; lia).
  rewrite recent_length. lia.
Qed.

Lemma per_call_growth_witness :
  (1 <= 2)%Z /\
  exists bs d,
    run 2 1.5%float [7; 8; 9]%float = inr (bs, d) /\
    length bs = length [7; 8; 9]%float /\
    length (values d) = Nat.min (length [7; 8; 9]%float) (Z.to_nat 2) /\
    forall v,
      values (snd (is_anomaly d v))
      = (if (Z.of_nat (length [7; 8; 9]%float) <? 2)%Z then values d
         else tl (values d)) ++ [v] /\
      length (values (snd (is_anomaly d v)))
      = Nat.min (S (length [7; 8; 9]%float)) (Z.to_nat 2).
Proof.
  split; [lia |].
  apply (per_call_growth 2 1.5%float [7; 8; 9]%float); [lia | size].
Defined.

(** ** Construction *)

(** C6, as the program behaves: the constructor checks neither argument.
    A window size of 0 and a negative sensitivity both give a detector. *)
Lemma construction_accepts_invalid_configuration :
  init 0 (3 / 2)%R = inr (mkDetector 0 (3 / 2)%R []) /\
  init 50 (- 1)%R = inr (mkDetector 50 (- 1)%R []) /\
  init 0 0%R = inr (mkDetector 0 0%R []).
Proof. repeat split; apply init_ok; size. Qed.

(** C6, amended: the constructor validates nothing itself; its outcome
    is that of [deque(maxlen=window_size)].  It gives a detector with an
    empty window exactly when [0 <= window_size <= 2^63 - 1], whatever
    the sensitivity; it fails with [ValueError] exactly when
    [- 2^63 <= window_size < 0], and with [OverflowError] exactly when
    [window_size] does not fit a [Py_ssize_t]; a failure gives no
    detector. *)
Theorem construction_outcome {V : Type} `{PyNum V} (w : Z) (s : V) :
  (init w s = inr (mkDetector w s [])
   <-> (0 <= w <= 2 ^ 63 - 1)%Z) /\
  (init w s = inl ValueError <-> (- 2 ^ 63 <= w < 0)%Z) /\
  (init w s = inl OverflowError <-> (w < - 2 ^ 63 \/ 2 ^ 63 - 1 < w)%Z) /\
  (forall d, init w s = inr d -> d = mkDetector w s []).
Proof.
  destruct (Z.lt_ge_cases w PY_SSIZE_T_MIN) as [Hlow | Hmin];
    [| destruct (Z.lt_ge_cases PY_SSIZE_T_MAX w) as [Hhigh | Hmax];
       [| destruct (Z.lt_ge_cases w 0) as [Hneg | Hnn]]].
  - rewrite init_overflow by (now left).
    repeat split; intros; try discriminate; try size; reflexivity.
  - rewrite init_overflow by (now right).
    repeat split; intros; try discriminate; try size; reflexivity.
  - rewrite init_negative by assumption.
    repeat split; intros; try discriminate; try size; reflexivity.
  - rewrite init_ok by assumption.
    repeat split; intros; try discriminate; try size; try reflexivity.
    match goal with Hd : inr _ = inr _ |- _ => now injection Hd as <- end.
Qed.

(** ** Non-finite samples *)

(** C5, as the program behaves: [nan] and [infinity] are taken like any
    other sample.  No exception is raised and the window changes, during
    warm-up and on a full window alike. *)
Lemma nonfinite_sample_is_absorbed :
  PrimFloat.is_finite nan = false /\
  PrimFloat.is_finite infinity = false /\
  is_anomaly (mkDetector 3 1.5%float [1; 2]%float) nan
  = (false, mkDetector 3 1.5%float [1; 2; nan]%float) /\
  is_anomaly (mkDetector 2 1.5%float [1; 2]%float) infinity
  = (false, mkDetector 2 1.5%float [2; infinity]%float) /\
  values (snd (is_anomaly (mkDetector 3 1.5%float [1; 2]%float) nan))
  <> [1; 2]%float.
Proof.
  repeat split; try (vm_compute; reflexivity).
  vm_compute. discriminate.
Qed.

(** C5, amended: a call with a non-finite value is an ordinary call.  It
    returns a boolean, [False] during warm-up, and the value enters the
    window by one [deque.append]. *)
Theorem nonfinite_sample_enters_window (d : detector float) (value : float) :
  PrimFloat.is_finite value = false ->
  exists b,
    is_anomaly d value
    = (b, set_values d (Deque.append (window_size d) (values d) value)) /\
    ((Z.of_nat (length (values d)) < window_size d)%Z -> b = false).
Proof.
  intros _. exists (fst (is_anomaly d value)). split.
  - rewrite (surjective_pairing (is_anomaly d value)) at 1.
    now rewrite is_anomaly_state.
  - intros Hwarm. now rewrite is_anomaly_warm.
Qed.

Lemma nonfinite_sample_enters_window_witness :
  PrimFloat.is_finite neg_infinity = false /\
  exists b,
    is_anomaly (mkDetector 2 1.5%float [1; 2]%float) neg_infinity
    = (b, mkDetector 2 1.5%float [2; neg_infinity]%float) /\
    ((Z.of_nat (length [1; 2]%float) < 2)%Z -> b = false).
Proof.
  split; [vm_compute; reflexivity |].
  apply (nonfinite_sample_enters_window
           (mkDetector 2 1.5%float [1; 2]%float) neg_infinity).
  vm_compute; reflexivity.
Defined.

(** ** What the statistics are taken over *)

(** C1, amended: on a full window the statistics are those of the window
    after the call's own [deque.append]: the [window_size - 1] values
    before the call, then the value being classified.  The oldest value
    of the window has no part in the result. *)
Theorem statistics_include_the_value
    {V : Type} `{PyNum V} (d : detector V) (value : V) :
  (0 < window_size d)%Z ->
  Z.of_nat (length (values d)) = window_size d ->
  exists oldest rest,
    values d = oldest :: rest /\
    update_window d value
    = ((np_mean (rest ++ [value]), np_std (rest ++ [value])),
       set_values d (rest ++ [value])) /\
    is_anomaly d value
    = (gtb (abs (sub value (np_mean (rest ++ [value]))))
           (mul (sensitivity d) (np_std (rest ++ [value]))),
       set_values d (rest ++ [value])) /\
    forall other,
      fst (is_anomaly (set_values d (other :: rest)) value)
      = fst (is_anomaly d value).
Proof.
  intros Hpos Hfull.
  destruct d as [w s [| o rest]]; cbn [values window_size] in *;
    [cbn in Hfull; lia |].
  exists o, rest. split; [reflexivity |].
  assert (Hup : forall o',
    update_window (mkDetector w s (o' :: rest)) value
    = ((np_mean (rest ++ [value]), np_std (rest ++ [value])),
       mkDetector w s (rest ++ [value]))).
  { intros o'. unfold update_window, push, set_values.
    cbn [values window_size sensitivity].
    rewrite DequeFacts.append_full_cons by (cbn [length] in *; lia).
    reflexivity. }
  assert (Hcall : forall o',
    is_anomaly (mkDetector w s (o' :: rest)) value
    = (gtb (abs (sub value (np_mean (rest ++ [value]))))
           (mul s (np_std (rest ++ [value]))),
       mkDetector w s (rest ++ [value]))).
  { intros o'. unfold is_anomaly. rewrite Hup.
    cbn [values window_size sensitivity].
    destruct (Z.ltb_spec (Z.of_nat (length (o' :: rest))) w);
      [cbn [length] in *; lia | reflexivity]. }
  split; [apply Hup |]. split; [apply Hcall |].
  intros other. unfold set_values. cbn [window_size sensitivity].
  rewrite (Hcall other), (Hcall o). reflexivity.
Qed.

Lemma statistics_include_the_value_witness :
  (0 < 2)%Z /\
  Z.of_nat (length [1; 2]%float) = 2%Z /\
  exists oldest rest,
    [1; 2]%float = oldest :: rest /\
    update_window (mkDetector 2 1.5%float [1; 2]%float) 9%float
    = ((np_mean (rest ++ [9%float]), np_std (rest ++ [9%float])),
       mkDetector 2 1.5%float (rest ++ [9%float])) /\
    is_anomaly (mkDetector 2 1.5%float [1; 2]%float) 9%float
    = (gtb (abs (sub 9%float (np_mean (rest ++ [9%float]))))
           (mul 1.5%float (np_std (rest ++ [9%float]))),
       mkDetector 2 1.5%float (rest ++ [9%float])) /\
    forall other,
      fst (is_anomaly (mkDetector 2 1.5%float (other :: rest)) 9%float)
      = fst (is_anomaly (mkDetector 2 1.5%float [1; 2]%float) 9%float).
Proof.
  split; [lia |]. split; [reflexivity |].
  apply (statistics_include_the_value
           (mkDetector 2 1.5%float [1; 2]%float) 9%float);
    [cbn; lia | reflexivity].
Defined.

(** ** The statistics over the reals *)

Section RealStatistics.
Local Open Scope R_scope.

Lemma Rgtb_true (x y : R) : Rgtb x y = true <-> y < x.
Proof.
  unfold Rgtb. destruct (Rlt_dec y x) as [Hlt | Hge].
  - split; intros; [exact Hlt | reflexivity].
  - split; intros Hx; [discriminate | contradiction].
Qed.

Lemma Rgtb_false (x y : R) : Rgtb x y = false <-> x <= y.
Proof.
  unfold Rgtb. destruct (Rlt_dec y x) as [Hlt | Hge].
  - split; intros Hx; [discriminate | lra].
  - split; intros; [lra | reflexivity].
Qed.

Lemma fold_left_Rplus (xs : list R) (a : R) :
  fold_left Rplus xs a = a + Rsum xs.
Proof.
  unfold Rsum. revert a.
  induction xs as [| x xs IH]; intros a; cbn [fold_left fold_right].
  - lra.
  - rewrite IH. lra.
Qed.

Lemma np_sum_R (xs : list R) : np_sum xs = Rsum xs.
Proof.
  unfold np_sum. cbn [add of_nat R_PyNum INR].
  rewrite fold_left_Rplus. lra.
Qed.

Lemma np_mean_R (xs : list R) :
  np_mean xs = Rsum xs / INR (length xs).
Proof. unfold np_mean. rewrite np_sum_R. reflexivity. Qed.

Lemma np_std_R (xs : list R) :
  np_std xs
  = R_sqrt.sqrt (Rsum (sqdev (np_mean xs) xs) / INR (length xs)).
Proof.
  unfold np_std. cbv zeta. rewrite np_sum_R, map_map. reflexivity.
Qed.

Lemma Rsum_app (xs ys : list R) : Rsum (xs ++ ys) = Rsum xs + Rsum ys.
Proof.
  unfold Rsum. induction xs as [| x xs IH]; cbn [app fold_right].
  - lra.
  - rewrite IH. lra.
Qed.

Lemma sqdev_app (m : R) (xs ys : list R) :
  sqdev m (xs ++ ys) = sqdev m xs ++ sqdev m ys.
Proof. apply map_app. Qed.

Lemma Rsum_sqdev_nonneg (m : R) (xs : list R) : 0 <= Rsum (sqdev m xs).
Proof.
  unfold Rsum, sqdev. induction xs as [| x xs IH]; cbn [map fold_right].
  - lra.
  - pose proof (Rle_0_sqr (x - m)) as Hsq. unfold Rsqr in Hsq. lra.
Qed.

Lemma square_sum_step (n S0 Q a : R) :
  0 <= n -> 0 <= Q -> S0 * S0 <= n * Q ->
  (a + S0) * (a + S0) <= (n + 1) * (a * a + Q).
Proof.
  intros Hn HQ HS.
  destruct (Req_dec n 0) as [Hz | Hnz].
  - subst n. assert (HS0 : S0 = 0) by nra. subst S0. nra.
  - assert (Hpos : 0 < n) by lra.
    pose proof (Rle_0_sqr (n * a - S0)) as Hsq. unfold Rsqr in Hsq.
    apply Rmult_le_reg_l with n; [exact Hpos |].
    assert (Hlift : n * (S0 * S0) <= n * (n * Q))
      by (apply Rmult_le_compat_l; lra).
    nra.
Qed.

(** Cauchy-Schwarz against the constant vector, on the deviations. *)
Lemma Rsum_dev_square (m : R) (xs : list R) :
  (Rsum xs - INR (length xs) * m) * (Rsum xs - INR (length xs) * m)
  <= INR (length xs) * Rsum (sqdev m xs).
Proof.
  induction xs as [| x xs IH].
  - cbn [length Rsum fold_right sqdev map INR]. lra.
  - change (length (x :: xs)) with (S (length xs)). rewrite S_INR.
    change (Rsum (x :: xs)) with (x + Rsum xs).
    change (Rsum (sqdev m (x :: xs)))
      with ((x - m) * (x - m) + Rsum (sqdev m xs)).
    replace (x + Rsum xs - (INR (length xs) + 1) * m)
      with ((x - m) + (Rsum xs - INR (length xs) * m)) by ring.
    apply square_sum_step;
      [apply pos_INR | apply Rsum_sqdev_nonneg | exact IH].
Qed.

(** The deviation of the last element is bounded by the others'. *)
Lemma last_deviation_bound (rest : list R) (v : R) :
  let xs := rest ++ [v] in
  let n := INR (length xs) in
  let m := np_mean xs in
  (v - m) * (v - m) * n <= (n - 1) * Rsum (sqdev m xs).
Proof.
  intros xs n m.
  assert (Hn : n = INR (length rest) + 1).
  { unfold n, xs. rewrite length_app, Nat.add_1_r. apply S_INR. }
  assert (Hm : m * n = Rsum rest + v).
  { unfold m. rewrite np_mean_R. fold n. unfold xs at 1.
    rewrite Rsum_app. cbn [Rsum fold_right].
    pose proof (pos_INR (length rest)). field. lra. }
  assert (Hss : Rsum (sqdev m xs)
                = Rsum (sqdev m rest) + (v - m) * (v - m)).
  { unfold xs. rewrite sqdev_app, Rsum_app.
    cbn [sqdev map Rsum fold_right]. lra. }
  pose proof (Rsum_dev_square m rest) as Hcs.
  replace (Rsum rest - INR (length rest) * m) with (m - v) in Hcs by nra.
  rewrite Hss, Hn. nra.
Qed.

(** The comparison of the decision rule, without the square root. *)
Lemma rule_squares (a s X : R) :
  0 <= s -> 0 <= X ->
  (Rgtb (Rabs a) (s * R_sqrt.sqrt X) = true <-> s * s * X < a * a).
Proof.
  intros Hs HX. rewrite Rgtb_true.
  pose proof (sqrt_pos X) as Ht. pose proof (sqrt_def X HX) as Htt.
  pose proof (Rabs_pos a) as Ha.
  assert (Haa : Rabs a * Rabs a = a * a).
  { unfold Rabs. destruct (Rcase_abs a); ring. }
  set (t := R_sqrt.sqrt X) in *. set (b := Rabs a) in *.
  assert (Hst : 0 <= s * t) by nra.
  replace (s * s * X) with ((s * t) * (s * t)) by (rewrite <- Htt; ring).
  rewrite <- Haa. split; intros Hlt; nra.
Qed.

Lemma sqrt_gt_squares (s k : R) :
  0 < s -> 0 <= k -> (s < R_sqrt.sqrt k <-> s * s < k).
Proof.
  intros Hs Hk.
  pose proof (sqrt_pos k) as Ht. pose proof (sqrt_def k Hk) as Htt.
  set (t := R_sqrt.sqrt k) in *. split; intros Hlt; nra.
Qed.

Lemma sqrt_le_squares (s k : R) :
  0 <= k -> R_sqrt.sqrt k <= s -> k <= s * s.
Proof.
  intros Hk Hle.
  pose proof (sqrt_pos k) as Ht. pose proof (sqrt_def k Hk) as Htt.
  set (t := R_sqrt.sqrt k) in *. nra.
Qed.

(** [is_anomaly] on a full window of reals. *)
Lemma is_anomaly_full_R (w : Z) (s o : R) (rest : list R) (v : R) :
  (w <= Z.of_nat (length (o :: rest)))%Z ->
  let xs := rest ++ [v] in
  is_anomaly (mkDetector w s (o :: rest)) v
  = (Rgtb (Rabs (v - np_mean xs))
          (s * R_sqrt.sqrt (Rsum (sqdev (np_mean xs) xs) / INR (length xs))),
     mkDetector w s xs).
Proof.
  intros Hfull xs.
  rewrite is_anomaly_full by exact Hfull.
  cbn [values sensitivity tl app]. fold xs. rewrite np_std_R. reflexivity.
Qed.

End RealStatistics.

(** ** Runs, and the first call on a full window *)

Section Runs.
Context {V : Type} `{PyNum V}.

Lemma results_run (w : Z) (s : V) (xs : list V) :
  (0 <= w)%Z -> (w <= PY_SSIZE_T_MAX)%Z ->
  results w s xs = Some (fst (feed (mkDetector w s []) xs)).
Proof.
  intros Hw Hmax. unfold results. rewrite run_ok by assumption.
  destruct (feed (mkDetector w s []) xs). reflexivity.
Qed.


(** A stream no longer than the window only gets [False]. *)
Lemma results_warm (w : Z) (s : V) (xs : list V) :
  (0 <= w)%Z -> (w <= PY_SSIZE_T_MAX)%Z ->
  (Z.of_nat (length xs) <= w)%Z ->
  results w s xs = Some (repeat false (length xs)).
Proof.
  intros Hw Hmax Hlen. rewrite results_run by assumption.
  now rewrite feed_warm by (cbn [values window_size length]; lia).
Qed.

(** The call that follows the filling of the window is a call on the
    detector whose window is the stream so far. *)
Lemma results_after_fill (w : Z) (s : V) (xs : list V) (v : V) :
  (0 < w)%Z -> (w <= PY_SSIZE_T_MAX)%Z ->
  length xs = Z.to_nat w ->
  results w s (xs ++ [v])
  = Some (repeat false (length xs)
          ++ [fst (is_anomaly (mkDetector w s xs) v)]).
Proof.
  intros Hw Hmax Hlen. rewrite results_run by lia. rewrite feed_app. cbn [fst].
  rewrite feed_warm by (cbn [values window_size length]; lia).
  rewrite fresh_feed by exact Hw.
  unfold recent. replace (length xs - Z.to_nat w)%nat with 0%nat by lia.
  cbn [skipn feed].
  destruct (is_anomaly (mkDetector w s xs) v). reflexivity.
Qed.

End Runs.

Section RealDecisions.
Local Open Scope R_scope.

Lemma Rsum_repeat (c : R) (k : nat) : Rsum (repeat c k) = INR k * c.
Proof.
  induction k as [| k IH]; [cbn; lra |].
  rewrite S_INR. cbn [repeat]. change (Rsum (c :: repeat c k))
    with (c + Rsum (repeat c k)). rewrite IH. lra.
Qed.

Lemma Rsum_sqdev_repeat (m c : R) (k : nat) :
  Rsum (sqdev m (repeat c k)) = INR k * ((c - m) * (c - m)).
Proof.
  induction k as [| k IH]; [cbn; lra |].
  rewrite S_INR. cbn [repeat].
  change (Rsum (sqdev m (c :: repeat c k)))
    with ((c - m) * (c - m) + Rsum (sqdev m (repeat c k))).
  rewrite IH. lra.
Qed.

(** A full window of copies of [c]: the call on [v] raises the flag
    exactly when [v] differs from [c] and the sensitivity is below the
    square root of [window_size - 1]. *)
Lemma constant_window_call (w : Z) (s c v : R) :
  (0 < w)%Z -> 0 < s ->
  (fst (is_anomaly (mkDetector w s (repeat c (Z.to_nat w))) v) = true
   <-> v <> c /\ s < R_sqrt.sqrt (IZR w - 1)).
Proof.
  intros Hw Hs.
  destruct (Z.to_nat w) as [| k] eqn:Hk; [lia |].
  assert (HK : IZR w - 1 = INR k).
  { replace w with (Z.of_nat (S k)) by lia.
    rewrite <- INR_IZR_INZ, S_INR. lra. }
  rewrite HK. pose proof (pos_INR k) as HKpos. set (K := INR k) in *.
  cbn [repeat]. rewrite is_anomaly_full_R
    by (cbn [length]; rewrite repeat_length; lia).
  cbn [fst].
  assert (Hn : INR (length (repeat c k ++ [v])) = K + 1).
  { rewrite length_app, repeat_length, Nat.add_1_r. apply S_INR. }
  set (u := (v - c) / (K + 1)).
  assert (Hm : np_mean (repeat c k ++ [v]) = v - K * u).
  { rewrite np_mean_R, Hn, Rsum_app, Rsum_repeat.
    cbn [Rsum fold_right]. fold K. unfold u. field. lra. }
  rewrite Hm, Hn, sqdev_app, Rsum_app, Rsum_sqdev_repeat. fold K.
  cbn [sqdev map Rsum fold_right].
  assert (Hc : c - (v - K * u) = - u) by (unfold u; field; lra).
  rewrite Hc.
  replace (v - (v - K * u)) with (K * u) by ring.
  replace ((K * (- u * - u) + (K * u * (K * u) + 0)) / (K + 1))
    with (K * (u * u)) by (field; lra).
  assert (Hu : u = 0 <-> v = c).
  { unfold u. split; intros Hx.
    - apply Rmult_eq_compat_r with (r := K + 1) in Hx.
      unfold Rdiv in Hx. rewrite Rmult_assoc, Rinv_l in Hx by lra. lra.
    - subst v. unfold Rdiv. ring. }
  rewrite rule_squares by nra.
  rewrite sqrt_gt_squares by lra.
  split.
  - intros Hlt. split.
    + intros Hv. apply Hu in Hv. rewrite Hv in Hlt. lra.
    + assert (Huu : 0 < u * u).
      { destruct (Req_dec u 0) as [Hz | Hnz]; [rewrite Hz in Hlt; lra |].
        pose proof (Rsqr_pos_lt u Hnz) as Hsq. exact Hsq. }
      assert (HKp : 0 < K).
      { destruct (Req_dec K 0) as [Hz | Hnz]; [rewrite Hz in Hlt; lra | lra]. }
      apply Rmult_lt_reg_r with (K * (u * u));
        [apply Rmult_lt_0_compat; assumption |].
      replace (K * (K * (u * u))) with (K * u * (K * u)) by ring.
      exact Hlt.
  - intros [Hv Hlt].
    assert (Hnz : u <> 0) by (intros Hz; apply Hv, Hu, Hz).
    assert (Huu : 0 < u * u) by exact (Rsqr_pos_lt u Hnz).
    assert (HKp : 0 < K).
    { pose proof (Rle_0_sqr s) as Hss. unfold Rsqr in Hss. lra. }
    assert (Hk2 : s * s * K < K * K)
      by (apply Rmult_lt_compat_r; assumption).
    replace (s * s * (K * (u * u))) with (s * s * K * (u * u)) by ring.
    replace (K * u * (K * u)) with (K * K * (u * u)) by ring.
    apply Rmult_lt_compat_r; assumption.
Qed.

End RealDecisions.

(** ** Saturation *)

Section Saturation.
Local Open Scope R_scope.

Lemma sqrt_le_of_square (k s : R) :
  0 <= s -> k <= s * s -> R_sqrt.sqrt k <= s.
Proof.
  intros Hs Hk. rewrite <- (sqrt_square s Hs).
  destruct (Rle_dec 0 k) as [Hk0 | Hk0].
  - apply sqrt_le_1_alt. exact Hk.
  - rewrite sqrt_neg_0 by lra. apply sqrt_pos.
Qed.

(** On a full window, a sensitivity of at least the square root of
    [window_size - 1] leaves no value above the threshold. *)
Lemma saturated_call (w : Z) (s o : R) (rest : list R) (v : R) :
  Z.of_nat (length (o :: rest)) = w ->
  R_sqrt.sqrt (IZR w - 1) <= s ->
  fst (is_anomaly (mkDetector w s (o :: rest)) v) = false.
Proof.
  intros Hfull Hs.
  rewrite is_anomaly_full_R by lia. cbn [fst].
  pose proof (last_deviation_bound rest v) as Hb. cbv zeta in Hb.
  assert (Hn : INR (length (rest ++ [v])) = IZR w).
  { rewrite INR_IZR_INZ. f_equal. rewrite length_app, Nat.add_1_r.
    cbn [length] in Hfull. lia. }
  assert (Hk : 0 <= IZR w - 1).
  { rewrite <- Hn, length_app, Nat.add_1_r, S_INR.
    pose proof (pos_INR (length rest)). lra. }
  rewrite Hn in *.
  pose proof (sqrt_pos (IZR w - 1)) as Hs0.
  pose proof (sqrt_le_squares s (IZR w - 1) Hk Hs) as Hss.
  pose proof (Rsum_sqdev_nonneg (np_mean (rest ++ [v])) (rest ++ [v])) as Hq.
  set (a := v - np_mean (rest ++ [v])) in *.
  set (Q := Rsum (sqdev (np_mean (rest ++ [v])) (rest ++ [v]))) in *.
  set (n := IZR w) in *.
  assert (Hnpos : 0 < n) by lra.
  assert (HX : 0 <= Q / n).
  { unfold Rdiv. apply Rmult_le_pos; [exact Hq |].
    left. apply Rinv_0_lt_compat. exact Hnpos. }
  assert (HXn : Q / n * n = Q) by (field; lra).
  destruct (Rgtb (Rabs a) (s * R_sqrt.sqrt (Q / n))) eqn:E; [| reflexivity].
  apply rule_squares in E; [| lra | exact HX].
  exfalso.
  assert (H1 : s * s * (Q / n) * n < a * a * n)
    by (apply Rmult_lt_compat_r; assumption).
  replace (s * s * (Q / n) * n) with (s * s * Q) in H1
    by (rewrite <- HXn at 1; ring).
  assert (H2 : (n - 1) * Q <= s * s * Q)
    by (apply Rmult_le_compat_r; assumption).
  lra.
Qed.

(** A run under a saturating sensitivity only gets [False]. *)
Lemma feed_saturated (w : Z) (s : R) (xs : list R) (d : detector R) :
  (0 < w)%Z -> R_sqrt.sqrt (IZR w - 1) <= s ->
  window_size d = w -> sensitivity d = s ->
  (Z.of_nat (length (values d)) <= w)%Z ->
  fst (feed d xs) = repeat false (length xs).
Proof.
  intros Hw Hs. revert d.
  induction xs as [| x xs IH]; intros d Hdw Hds Hlen; [reflexivity |].
  cbn [feed length repeat].
  pose proof (is_anomaly_state d x) as Hst.
  assert (Hb : fst (is_anomaly d x) = false).
  { destruct (Z.lt_ge_cases (Z.of_nat (length (values d))) w) as [Hlt | Hge].
    - rewrite is_anomaly_warm by lia. reflexivity.
    - destruct d as [w0 s0 [| o rest]]; cbn [values window_size sensitivity] in *;
        [cbn [length] in Hge; lia |].
      subst w0 s0. apply saturated_call; [lia | exact Hs]. }
  destruct (is_anomaly d x) as [b d1]. cbn [fst snd] in Hb, Hst. subst b d1.
  specialize (IH (push d x)).
  destruct (feed (push d x) xs) as [bs d2]. cbn [fst] in *.
  f_equal. apply IH.
  - cbn [push set_values window_size]. exact Hdw.
  - cbn [push set_values sensitivity]. exact Hds.
  - cbn [push set_values values]. rewrite Hdw.
    rewrite DequeFacts.append_length by lia. lia.
Qed.

End Saturation.

(** C9, as the program behaves: on binary64 the window [0, 0, 1e-200]
    has a mean whose deviations square to 0, so the standard deviation
    is 0 and the value 1e-200 is flagged, under the sensitivity 1000,
    far above the square root of 2. *)
Lemma saturation_fails_on_binary64 :
  (2 <= 3)%Z /\
  PrimFloat.leb (PrimFloat.sqrt (PrimFloat.sub 3 1)) 1000 = true /\
  results 3 1000%float [0; 0; 0; 0x1.87e92154ef7acp-665]%float
  = Some [false; false; false; true].
Proof. repeat split; try lia; vm_compute; reflexivity. Qed.

(** C9, amended: the bound is one of exact arithmetic.  With
    [window_size] at least 2 and a sensitivity of at least the square
    root of [window_size - 1], the rule evaluated over exact reals
    answers [False] on every full window, and so on every call of a run;
    the binary64 program does not inherit this: rounding lets it flag a
    value under such a sensitivity, as 0.1 after 5 and 0.3 with window 2
    and sensitivity 1. *)
Theorem sensitivity_saturation (w : Z) (s : R) :
  (2 <= w)%Z ->
  (w <= PY_SSIZE_T_MAX)%Z ->
  (R_sqrt.sqrt (IZR w - 1) <= s)%R ->
  (forall (d : detector R) (v : R),
     window_size d = w -> sensitivity d = s ->
     Z.of_nat (length (values d)) = w ->
     fst (is_anomaly d v) = false) /\
  (forall xs : list R, results w s xs = Some (repeat false (length xs))) /\
  (PrimFloat.leb (PrimFloat.sqrt (PrimFloat.sub 2 1)) 1 = true /\
   results 2 1%float [5; 0x1.3333333333333p-2; 0x1.999999999999ap-4]%float
   = Some [false; false; true]).
Proof.
  intros Hw Hmax Hs. split; [| split].
  - intros [w0 s0 [| o rest]] v Hdw Hds Hfull;
      cbn [values window_size sensitivity] in *;
      [cbn [length] in Hfull; lia |].
    subst w0 s0. apply saturated_call; assumption.
  - intros xs. rewrite results_run by lia. f_equal.
    apply feed_saturated with (w := w) (s := s);
      [lia | exact Hs | reflexivity | reflexivity | cbn [values length]; lia].
  - split; vm_compute; reflexivity.
Qed.

Lemma sensitivity_saturation_witness :
  (2 <= 3)%Z /\
  (R_sqrt.sqrt (IZR 3 - 1) <= 2)%R /\
  (forall (d : detector R) (v : R),
     window_size d = 3%Z -> sensitivity d = 2%R ->
     Z.of_nat (length (values d)) = 3%Z ->
     fst (is_anomaly d v) = false) /\
  (forall xs : list R, results 3 2%R xs = Some (repeat false (length xs))) /\
  (PrimFloat.leb (PrimFloat.sqrt (PrimFloat.sub 2 1)) 1 = true /\
   results 2 1%float [5; 0x1.3333333333333p-2; 0x1.999999999999ap-4]%float
   = Some [false; false; true]).
Proof.
  assert (Hs : (R_sqrt.sqrt (IZR 3 - 1) <= 2)%R)
    by (apply sqrt_le_of_square; lra).
  split; [lia |]. split; [exact Hs |].
  apply (sensitivity_saturation 3 2%R); [lia | size | exact Hs].
Defined.

(** ** A constant window *)




(** ** The first call that can answer [True] *)

(** C4, as the program behaves: with [window_size = 3] the third call
    answers [False] on every stream; it is still a warm-up call. *)
Lemma third_call_of_three_is_warm_up :
  ~ exists xs : list R,
      length xs = 3%nat /\
      exists bs, results 3 1%R xs = Some bs /\ nth 2 bs false = true.
Proof.
  intros (xs & Hlen & bs & Hrun & Hnth).
  rewrite results_warm in Hrun by size.
  rewrite Hlen in Hrun. cbn [repeat] in Hrun.
  injection Hrun as <-. discriminate Hnth.
Qed.

(** C4, amended: the first [window_size] calls answer [False] on every
    stream, the [window_size]-th included; the first call that can answer
    [True] is the one after them, and it does on some stream whenever the
    sensitivity is below the square root of [window_size - 1].  (For a
    [window_size] that [deque] accepts.) *)
Theorem first_eligible_call (w : Z) (s : R) :
  (0 < w)%Z -> (w <= PY_SSIZE_T_MAX)%Z -> (0 < s)%R ->
  (forall xs : list R,
     (Z.of_nat (length xs) <= w)%Z ->
     results w s xs = Some (repeat false (length xs))) /\
  ((s < R_sqrt.sqrt (IZR w - 1))%R ->
   exists xs : list R,
     length xs = S (Z.to_nat w) /\
     results w s xs = Some (repeat false (Z.to_nat w) ++ [true])).
Proof.
  intros Hw Hmax Hs. split.
  - intros xs Hlen. apply results_warm; [lia | exact Hmax | exact Hlen].
  - intros Hlt. exists (repeat 0%R (Z.to_nat w) ++ [1%R]). split.
    + rewrite length_app, repeat_length. cbn [length]. lia.
    + rewrite results_after_fill by (rewrite ?repeat_length; lia).
      rewrite repeat_length. do 3 f_equal.
      apply constant_window_call; [exact Hw | exact Hs |].
      split; [lra | exact Hlt].
Qed.

Lemma first_eligible_call_witness :
  (0 < 3)%Z /\ (0 < 1)%R /\
  (forall xs : list R,
     (Z.of_nat (length xs) <= 3)%Z ->
     results 3 1%R xs = Some (repeat false (length xs))) /\
  ((1 < R_sqrt.sqrt (IZR 3 - 1))%R ->
   exists xs : list R,
     length xs = S (Z.to_nat 3) /\
     results 3 1%R xs = Some (repeat false (Z.to_nat 3) ++ [true])).
Proof.
  split; [lia |]. split; [lra |].
  apply (first_eligible_call 3 1%R); [lia | size | lra].
Defined.

(** ** The scenario of the specification: window 3, sensitivity 2 *)

Section Scenario.
Local Open Scope R_scope.

Lemma call_pair {V : Type} `{PyNum V} (d : detector V) (v : V) :
  is_anomaly d v = (fst (is_anomaly d v), push d v).
Proof.
  rewrite <- is_anomaly_state. apply surjective_pairing.
Qed.

Lemma scenario_sensitivity : R_sqrt.sqrt (IZR 3 - 1) <= 2.
Proof. apply sqrt_le_of_square; lra. Qed.

Lemma scenario_feed :
  feed (mkDetector 3 2 []) [10; 10; 10; 10; 50]
  = ([false; false; false; false; false], mkDetector 3 2 [10; 10; 50]).
Proof.
  cbn [feed].
  rewrite (is_anomaly_warm (mkDetector 3 2 [])) by (cbn; lia).
  cbn [set_values window_size sensitivity values app].
  rewrite (is_anomaly_warm (mkDetector 3 2 [10])) by (cbn; lia).
  cbn [set_values window_size sensitivity values app].
  rewrite (is_anomaly_warm (mkDetector 3 2 [10; 10])) by (cbn; lia).
  cbn [set_values window_size sensitivity values app].
  rewrite (call_pair (mkDetector 3 2 [10; 10; 10]) 10).
  rewrite (saturated_call 3 2 10 [10; 10] 10 eq_refl scenario_sensitivity).
  unfold push at 1. cbn [set_values window_size sensitivity values].
  rewrite DequeFacts.append_full_cons by (cbn; lia).
  cbn [app].
  rewrite (call_pair (mkDetector 3 2 [10; 10; 10]) 50).
  rewrite (saturated_call 3 2 10 [10; 10] 50 eq_refl scenario_sensitivity).
  unfold push. cbn [set_values window_size sensitivity values].
  rewrite DequeFacts.append_full_cons by (cbn; lia).
  reflexivity.
Qed.

End Scenario.

(** C2, as the program behaves: the fifth call, on 50, does not answer
    [True]. *)
Lemma scenario_fifth_call_not_flagged :
  results 3 2%R [10; 10; 10; 10; 50]%R
  <> Some [false; false; false; false; true].
Proof.
  rewrite results_run by size. rewrite scenario_feed. cbn [fst].
  discriminate.
Qed.

(** C2, amended: with window 3 and sensitivity 2, the calls on
    10, 10, 10, 10, 50 answer [False] five times, and they leave the
    window [10, 10, 50], oldest first. *)
Theorem concrete_scenario :
  run 3 2%R [10; 10; 10; 10; 50]%R
  = inr ([false; false; false; false; false],
         mkDetector 3 2%R [10; 10; 50]%R).
Proof.
  rewrite run_ok by size. now rewrite scenario_feed.
Qed.

(** ** Statistics before or after the value enters the window *)

(** C1, as the program behaves: on the full window [0, 0] the statistics
    that [update_window] returns for the value 2 are not those of
    [0, 0], and the answer is not the one the statistics of [0, 0] would
    give. *)
Lemma statistics_taken_after_insertion :
  fst (update_window (mkDetector 2 1%R [0; 0]%R) 2%R)
  <> (np_mean [0; 0]%R, np_std [0; 0]%R) /\
  fst (is_anomaly (mkDetector 2 1%R [0; 0]%R) 2%R) = false /\
  fst (classify_spec (mkDetector 2 1%R [0; 0]%R) 2%R) = true.
Proof.
  split; [| split].
  - intros Heq. apply (f_equal fst) in Heq.
    unfold update_window, push in Heq.
    cbn [fst set_values window_size sensitivity values] in Heq.
    rewrite DequeFacts.append_full_cons in Heq by (cbn; lia).
    rewrite !np_mean_R in Heq.
    cbn [app Rsum fold_right length INR] in Heq. lra.
  - destruct (fst (is_anomaly (mkDetector 2 1%R [0; 0]%R) 2%R)) eqn:E;
      [| reflexivity].
    apply (constant_window_call 2 1 0 2) in E; [| lia | lra].
    destruct E as [_ E].
    replace (IZR 2 - 1)%R with 1%R in E by lra. rewrite sqrt_1 in E. lra.
  - unfold classify_spec.
    cbn [values window_size sensitivity length fst].
    destruct (Z.ltb_spec (Z.of_nat 2) 2); [lia |]. cbn [fst].
    rewrite np_std_R, np_mean_R.
    cbn [sqdev map Rsum fold_right length INR sub mul abs gtb R_PyNum].
    apply Rgtb_true.
    replace ((0 + (0 + 0)) / (1 + 1))%R with 0%R by lra.
    replace (((0 - 0) * (0 - 0) + ((0 - 0) * (0 - 0) + 0)) / (1 + 1))%R
      with 0%R by lra.
    rewrite sqrt_0. rewrite Rminus_0_r, Rmult_0_r.
    rewrite Rabs_pos_eq by lra. lra.
Qed.

(** ** Cross-checks on binary64 *)

Example float_scenario :
  run 3 2%float [10; 10; 10; 10; 50]%float
  = inr ([false; false; false; false; false],
         mkDetector 3 2%float [10; 10; 50]%float).
Proof. vm_compute. reflexivity. Qed.

Example float_constant_window :
  results 2 1%float [0; 0; 1]%float = Some [false; false; false].
Proof. vm_compute. reflexivity. Qed.

Example float_fourth_call_flagged :
  results 3 1%float [0; 0; 0; 1]%float = Some [false; false; false; true].
Proof. vm_compute. reflexivity. Qed.

Example float_scenario_2 :
  results 4 1.5%float [1; 2; 3; 4; 100]%float
  = Some [false; false; false; false; true].
Proof. vm_compute. reflexivity. Qed.

Example float_empty_window :
  is_anomaly (mkDetector 0 1.5%float []) 7%float
  = (false, mkDetector 0 1.5%float []).
Proof. vm_compute. reflexivity. Qed.


(** * Further properties of the detector *)

(** ** Forgetting *)

Section Forgetting.
Context {V : Type} `{PyNum V}.

Lemma recent_all {A : Type} (n : nat) (xs : list A) :
  (length xs <= n)%nat -> recent n xs = xs.
Proof.
  intros Hle. unfold recent.
  replace (length xs - n)%nat with 0%nat by lia. reflexivity.
Qed.

Lemma recent_app_long {A : Type} (n : nat) (old xs : list A) :
  (n <= length xs)%nat -> recent n (old ++ xs) = recent n xs.
Proof.
  intros Hle. unfold recent. rewrite length_app, skipn_app.
  rewrite skipn_all2 by lia. cbn [app]. f_equal. lia.
Qed.

(** After [window_size] calls or more, the detector is the one a fresh
    detector would be on the same calls. *)
Lemma feed_overwrites (d : detector V) (xs : list V) :
  (0 < window_size d)%Z ->
  (Z.of_nat (length (values d)) <= window_size d)%Z ->
  (window_size d <= Z.of_nat (length xs))%Z ->
  snd (feed d xs)
  = mkDetector (window_size d) (sensitivity d)
      (recent (Z.to_nat (window_size d)) xs).
Proof.
  intros Hpos Hlen Hlong.
  destruct (feed_recent d (values d) xs Hpos) as (Hw & Hs & Hv).
  { symmetry. apply recent_all. lia. }
  rewrite recent_app_long in Hv by lia.
  destruct (snd (feed d xs)) as [w' s' vs'].
  cbn [window_size sensitivity values] in *. now subst.
Qed.

End Forgetting.

(** X1: two detectors of the same configuration, whatever their windows
    hold, are in the same state after the same [window_size] calls or
    more, and give the same answers from then on. *)
Theorem history_is_forgotten
    {V : Type} `{PyNum V} (d1 d2 : detector V) (xs ys : list V) :
  (0 < window_size d1)%Z ->
  window_size d2 = window_size d1 ->
  sensitivity d2 = sensitivity d1 ->
  (Z.of_nat (length (values d1)) <= window_size d1)%Z ->
  (Z.of_nat (length (values d2)) <= window_size d1)%Z ->
  (window_size d1 <= Z.of_nat (length xs))%Z ->
  snd (feed d1 xs) = snd (feed d2 xs) /\
  skipn (length xs) (fst (feed d1 (xs ++ ys)))
  = skipn (length xs) (fst (feed d2 (xs ++ ys))).
Proof.
  intros Hpos Hw Hs Hl1 Hl2 Hlong.
  assert (Hsame : snd (feed d1 xs) = snd (feed d2 xs)).
  { rewrite (feed_overwrites d1), (feed_overwrites d2) by lia.
    now rewrite Hw, Hs. }
  split; [exact Hsame |].
  rewrite !feed_app. cbn [fst].
  rewrite !skipn_app, !feed_results_length, !Nat.sub_diag.
  rewrite (skipn_all2 (fst (feed d1 xs)))
    by (rewrite feed_results_length; lia).
  rewrite (skipn_all2 (fst (feed d2 xs)))
    by (rewrite feed_results_length; lia).
  cbn [app skipn]. now rewrite Hsame.
Qed.

Lemma history_is_forgotten_witness :
  snd (feed (mkDetector 2 1.5%float [100; 200]%float) [1; 2; 3]%float)
  = snd (feed (mkDetector 2 1.5%float []) [1; 2; 3]%float) /\
  skipn (length [1; 2; 3]%float)
    (fst (feed (mkDetector 2 1.5%float [100; 200]%float)
            ([1; 2; 3]%float ++ [4; 5]%float)))
  = skipn (length [1; 2; 3]%float)
      (fst (feed (mkDetector 2 1.5%float [])
              ([1; 2; 3]%float ++ [4; 5]%float))).
Proof.
  apply (history_is_forgotten
           (mkDetector 2 1.5%float [100; 200]%float)
           (mkDetector 2 1.5%float []) [1; 2; 3]%float [4; 5]%float);
    cbn; try reflexivity; lia.
Defined.

(** ** The sensitivity orders the answers *)

Section SensitivityOrder.
Local Open Scope R_scope.




End SensitivityOrder.



(** ** Not-a-number in the window (binary64) *)

Section NotANumber.
Import SpecFloat FloatOps.

(** [x] is the not-a-number of binary64. *)
Local Abbreviation nanf x := (Prim2SF x = S754_nan).

Lemma is_nan_nanf (x : float) : PrimFloat.is_nan x = true -> nanf x.
Proof.
  unfold PrimFloat.is_nan. rewrite FloatAxioms.eqb_spec.
  destruct (Prim2SF x) as [sg | sg | | sg m e]; unfold SFeqb, SFcompare.
  - discriminate.
  - destruct sg; discriminate.
  - reflexivity.
  - assert (Hm : PosDef.Pos.compare_cont Eq m m = Eq)
      by exact (Pos.compare_refl m).
    assert (He : IntDef.Z.compare e e = Eq) by exact (Z.compare_refl e).
    destruct sg; rewrite He, Hm; discriminate.
Qed.

Lemma add_nanf_l (x y : float) : nanf x -> nanf (PrimFloat.add x y).
Proof. intros Hx. rewrite FloatAxioms.add_spec, Hx. reflexivity. Qed.

Lemma add_nanf_r (x y : float) : nanf y -> nanf (PrimFloat.add x y).
Proof.
  intros Hy. rewrite FloatAxioms.add_spec, Hy.
  destruct (Prim2SF x); reflexivity.
Qed.

Lemma sub_nanf_r (x y : float) : nanf y -> nanf (PrimFloat.sub x y).
Proof.
  intros Hy. rewrite FloatAxioms.sub_spec, Hy.
  destruct (Prim2SF x); reflexivity.
Qed.

Lemma div_nanf_l (x y : float) : nanf x -> nanf (PrimFloat.div x y).
Proof. intros Hx. rewrite FloatAxioms.div_spec, Hx. reflexivity. Qed.

Lemma abs_nanf (x : float) : nanf x -> nanf (PrimFloat.abs x).
Proof. intros Hx. rewrite FloatAxioms.abs_spec, Hx. reflexivity. Qed.

Lemma ltb_nanf_r (x y : float) : nanf y -> PrimFloat.ltb x y = false.
Proof.
  intros Hy. rewrite FloatAxioms.ltb_spec, Hy.
  unfold SFltb, SFcompare. destruct (Prim2SF x); reflexivity.
Qed.

(** A sum that meets a not-a-number is not a number. *)
Lemma fold_add_nanf (xs : list float) (a : float) :
  nanf a \/ (exists x, In x xs /\ nanf x) ->
  nanf (fold_left PrimFloat.add xs a).
Proof.
  revert a. induction xs as [| y ys IH]; intros a Hn; cbn [fold_left].
  - destruct Hn as [Ha | (x & [] & _)]. exact Ha.
  - apply IH. destruct Hn as [Ha | (x & [Hx | Hx] & Hnan)].
    + left. now apply add_nanf_l.
    + subst x. left. now apply add_nanf_r.
    + right. now exists x.
Qed.

Lemma np_mean_nanf (xs : list float) :
  (exists x, In x xs /\ nanf x) -> nanf (np_mean xs).
Proof.
  intros Hn. unfold np_mean, np_sum. cbn [div add float_PyNum].
  apply div_nanf_l, fold_add_nanf. now right.
Qed.

(** The comparison of the rule against a mean that is not a number. *)
Lemma rule_nanf (v m t : float) :
  nanf m -> gtb (abs (sub v m)) t = false.
Proof.
  intros Hm. cbn [gtb abs sub float_PyNum].
  apply ltb_nanf_r, abs_nanf, sub_nanf_r, Hm.
Qed.

Lemma np_mean_empty_nanf : nanf (np_mean (@nil float)).
Proof. vm_compute. reflexivity. Qed.

Lemma is_anomaly_zero_window (s v : float) :
  is_anomaly (mkDetector 0 s []) v = (false, mkDetector 0 s []).
Proof.
  unfold is_anomaly, update_window, push, set_values.
  cbn [values window_size sensitivity length Deque.append app tl Z.of_nat
       Z.ltb Z.compare Pos.of_succ_nat].
  now rewrite (rule_nanf v _ _ np_mean_empty_nanf).
Qed.

End NotANumber.

(** X4: on binary64, a call whose window, once the value is in it, holds
    a not-a-number answers [False], whatever the other values are: a
    not-a-number silences the detector until it has left the window. *)
Theorem nan_in_window_silences (d : detector float) (value : float) :
  (exists x,
     In x (Deque.append (window_size d) (values d) value) /\
     PrimFloat.is_nan x = true) ->
  fst (is_anomaly d value) = false.
Proof.
  intros (x & Hin & Hnan).
  unfold is_anomaly, update_window.
  destruct (Z.of_nat (length (values d)) <? window_size d)%Z; [reflexivity |].
  cbn [fst]. apply rule_nanf, np_mean_nanf.
  exists x. split; [exact Hin | now apply is_nan_nanf].
Qed.

Lemma nan_in_window_silences_witness :
  fst (is_anomaly (mkDetector 3 1.5%float [1; nan; 1]%float) 1000000%float)
  = false.
Proof.
  apply (nan_in_window_silences
           (mkDetector 3 1.5%float [1; nan; 1]%float) 1000000%float).
  exists nan. split; [vm_compute; auto | vm_compute; reflexivity].
Defined.

(** X5: on binary64, a detector of [window_size] 0 keeps an empty window
    and answers [False] to every call: the mean of no value is not a
    number. *)
Theorem zero_window_never_flags (s : float) (xs : list float) :
  run 0 s xs = inr (repeat false (length xs), mkDetector 0 s []).
Proof.
  rewrite run_ok by size. f_equal.
  induction xs as [| x xs IH]; [reflexivity |].
  cbn [feed]. rewrite is_anomaly_zero_window, IH. reflexivity.
Qed.


(** * The sample source *)

Section Baseline.
Local Open Scope R_scope.
Import DataStreamSimulator.

Lemma baseline_other (p : String.string) (nl tr : R) (t : Z) :
  p <> "daily"%string ->
  _generate_baseline (mk p nl tr t) = 10 + tr * IZR t.
Proof.
  intros Hp. unfold _generate_baseline. cbn [seasonal_pattern time_index trend_rate].
  destruct (String.eqb_spec p "daily"%string) as [Heq | _]; [contradiction |].
  replace (2 * PI * 0 / 24) with 0 by (unfold Rdiv; ring).
  rewrite sin_0. ring.
Qed.

End Baseline.

(** X9: under any pattern other than ['daily'] there is no seasonal part:
    the baseline is the trend line itself. *)
Theorem other_pattern_baseline_is_trend
    (p : String.string) (nl tr : R) (t : Z) :
  p <> "daily"%string ->
  DataStreamSimulator._generate_baseline (DataStreamSimulator.mk p nl tr t)
  = (10 + tr * IZR t)%R.
Proof. apply baseline_other. Qed.

Lemma other_pattern_baseline_is_trend_witness :
  DataStreamSimulator._generate_baseline
    (DataStreamSimulator.mk "weekly"%string (2 / 10) (2 / 1000) 7)
  = (10 + 2 / 1000 * IZR 7)%R.
Proof.
  apply (other_pattern_baseline_is_trend "weekly"%string (2 / 10)%R (2 / 1000)%R 7).
  discriminate.
Defined.

Section Stream.
Local Open Scope R_scope.
Import DataStreamSimulator.

Lemma get_next_value_ok (sim : state) (rnd : draws) :
  0 <= noise_level sim ->
  exists v, get_next_value sim rnd = inr (v, advance sim) /\
    (uniform rnd < 5 / 100 ->
     v = _generate_baseline sim
         * np_random_choice 3 (1 / 10) (1 + gauss rnd) (chosen rnd)) /\
    (5 / 100 <= uniform rnd -> v = _generate_baseline sim + noise rnd).
Proof.
  intros Hnl. unfold get_next_value. cbv zeta.
  destruct (Rlt_dec (noise_level sim) 0) as [Hneg | _]; [lra |].
  destruct (Rlt_dec (uniform rnd) (5 / 100)) as [Hu | Hu];
    eexists; (split; [reflexivity |]); split; intros; try reflexivity; lra.
Qed.

(** A run of calls: the clock, and where each value comes from. *)
Lemma stream_ok (p : String.string) (nl tr : R) (rnds : list draws) (t : Z) :
  0 <= nl ->
  exists vs,
    stream (mk p nl tr t) rnds
    = inr (vs, mk p nl tr (t + Z.of_nat (length rnds))) /\
    length vs = length rnds /\
    forall (i : nat) (rnd : draws) (v : R),
      nth_error rnds i = Some rnd -> nth_error vs i = Some v ->
      get_next_value (mk p nl tr (t + Z.of_nat i)) rnd
      = inr (v, mk p nl tr (t + Z.of_nat i + 1)).
Proof.
  intros Hnl. revert t.
  induction rnds as [| rnd rnds IH]; intros t.
  - exists []. cbn [stream length Z.of_nat]. rewrite Z.add_0_r.
    split; [reflexivity |]. split; [reflexivity |].
    intros [| i] rnd v Hr; discriminate Hr.
  - destruct (get_next_value_ok (mk p nl tr t) rnd Hnl) as (v & Hv & _).
    destruct (IH (t + 1)%Z) as (vs & Hvs & Hlen & Hnth).
    exists (v :: vs). cbn [stream]. rewrite Hv.
    change (advance (mk p nl tr t)) with (mk p nl tr (t + 1)).
    rewrite Hvs. split; [| split].
    + do 3 f_equal. cbn [length]. lia.
    + cbn [length]. now rewrite Hlen.
    + intros [| i] rnd' v' Hr Hx; cbn [nth_error] in Hr, Hx.
      * injection Hr as <-. injection Hx as <-.
        cbn [Z.of_nat]. rewrite Z.add_0_r. exact Hv.
      * specialize (Hnth i rnd' v' Hr Hx).
        replace (t + Z.of_nat (S i))%Z with (t + 1 + Z.of_nat i)%Z by lia.
        exact Hnth.
Qed.

End Stream.

(** X10: with a noise level that is not negative, any number of calls of
    [get_next_value] succeeds, gives one value per call and advances the
    clock by one per call, injected anomaly or not, and leaves the other
    attributes alone. *)
Theorem stream_advances_clock
    (p : String.string) (nl tr : R) (t : Z)
    (rnds : list DataStreamSimulator.draws) :
  (0 <= nl)%R ->
  exists vs,
    DataStreamSimulator.stream (DataStreamSimulator.mk p nl tr t) rnds
    = inr (vs, DataStreamSimulator.mk p nl tr (t + Z.of_nat (length rnds))) /\
    length vs = length rnds.
Proof.
  intros Hnl. destruct (stream_ok p nl tr rnds t Hnl) as (vs & Hvs & Hlen & _).
  now exists vs.
Qed.

Lemma stream_advances_clock_witness :
  exists vs,
    DataStreamSimulator.stream
      (DataStreamSimulator.mk "daily"%string (2 / 10) (2 / 1000) 0)
      [DataStreamSimulator.mkDraws 0 (1 / 100) 0 DataStreamSimulator.First;
       DataStreamSimulator.mkDraws (1 / 10) (1 / 2) 0 DataStreamSimulator.First]
    = inr (vs, DataStreamSimulator.mk "daily"%string (2 / 10) (2 / 1000)
                 (0 + Z.of_nat 2)) /\
    length vs = 2%nat.
Proof.
  apply (stream_advances_clock "daily"%string (2 / 10)%R (2 / 1000)%R 0
           [DataStreamSimulator.mkDraws 0 (1 / 100) 0 DataStreamSimulator.First;
            DataStreamSimulator.mkDraws (1 / 10) (1 / 2) 0
              DataStreamSimulator.First]).
  lra.
Defined.

(** * The presenter *)

Section Presenter.
Context {T V : Type}.
Import StreamVisualizer.

Lemma append_recent_nonneg {A : Type} (maxlen : Z) (xs : list A) (x : A) :
  (0 <= maxlen)%Z ->
  Deque.append maxlen (recent (Z.to_nat maxlen) xs) x
  = recent (Z.to_nat maxlen) (xs ++ [x]).
Proof.
  intros Hnn. destruct (Z.eq_dec maxlen 0) as [-> | Hne].
  - unfold recent, Deque.append. cbv zeta. cbn [Z.to_nat].
    rewrite !Nat.sub_0_r, !skipn_all. cbn [app length Z.of_nat tl].
    reflexivity.
  - apply DequeFacts.append_recent. lia.
Qed.

End Presenter.

Section PresenterInvariant.
Context {T V : Type}.
Import StreamVisualizer.

Lemma flagged_snoc (hist : list (T * V * bool)) (t : T) (v : V) (b : bool) :
  flagged (hist ++ [(t, v, b)])
  = flagged hist ++ (if b then [(t, v)] else []).
Proof.
  unfold flagged. rewrite filter_app, map_app. cbn [filter snd].
  destruct b; reflexivity.
Qed.

Lemma recent_nil_inv {A : Type} (n : nat) (xs : list A) (x : A) :
  recent n (xs ++ [x]) = [] -> n = 0%nat.
Proof.
  intros Hnil. apply (f_equal (@length A)) in Hnil.
  rewrite recent_length, length_app in Hnil. cbn [length] in Hnil. lia.
Qed.

Lemma recent_zero {A : Type} (xs : list A) : recent 0 xs = [].
Proof. unfold recent. now rewrite Nat.sub_0_r, skipn_all. Qed.

(** One [update] keeps the presenter in step with the stream. *)
Lemma update_shows (vis : state T V) (hist : list (T * V * bool))
    (t : T) (v : V) (b : bool) :
  (0 <= history_size vis)%Z ->
  shows vis hist ->
  shows (update vis t v b) (hist ++ [(t, v, b)]) /\
  history_size (update vis t v b) = history_size vis.
Proof.
  intros Hh (Hts & Hvs & Han & Hline & Hsc).
  split; [| reflexivity].
  unfold shows, update. cbv zeta.
  cbn [history_size timestamps values anomalies line anomaly_scatter].
  rewrite !map_app. cbn [map fst snd].
  rewrite Hts, Hvs, !append_recent_nonneg by exact Hh.
  split; [reflexivity |]. split; [reflexivity |].
  assert (Han' :
    (if b then Deque.append (history_size vis) (anomalies vis) (t, v)
     else anomalies vis)
    = recent (Z.to_nat (history_size vis)) (flagged (hist ++ [(t, v, b)]))).
  { rewrite flagged_snoc. destruct b.
    - rewrite Han. now apply append_recent_nonneg.
    - now rewrite app_nil_r. }
  rewrite Han'. split; [reflexivity |]. split; [reflexivity |].
  destruct (recent (Z.to_nat (history_size vis))
              (flagged (hist ++ [(t, v, b)]))) as [| q qs] eqn:Hr;
    [| reflexivity].
  rewrite Hsc, Han.
  rewrite flagged_snoc in Hr. destruct b.
  - apply recent_nil_inv in Hr. rewrite Hr, recent_zero. reflexivity.
  - rewrite app_nil_r in Hr. now rewrite Hr.
Qed.

Lemma updates_shows (points : list (T * V * bool)) :
  forall (vis : state T V) (hist : list (T * V * bool)),
  (0 <= history_size vis)%Z ->
  shows vis hist ->
  shows (updates vis points) (hist ++ points) /\
  history_size (updates vis points) = history_size vis.
Proof.
  induction points as [| [[t v] b] points IH]; intros vis hist Hh Hsh.
  - rewrite app_nil_r. now split.
  - unfold updates. cbn [fold_left fst snd]. fold (updates (update vis t v b) points).
    destruct (update_shows vis hist t v b Hh Hsh) as [Hsh1 Hh1].
    destruct (IH (update vis t v b) (hist ++ [(t, v, b)])) as [Hsh2 Hh2];
      [rewrite Hh1; exact Hh | exact Hsh1 |].
    rewrite <- app_assoc in Hsh2. cbn [app] in Hsh2.
    split; [exact Hsh2 | now rewrite Hh2, Hh1].
Qed.

Lemma fresh_init (h : Z) :
  (0 <= h)%Z -> (h <= PY_SSIZE_T_MAX)%Z ->
  init (T := T) (V := V) h = inr (mk h [] [] [] ([], []) ([], [])).
Proof.
  intros Hh Hmax. unfold init. now rewrite !DequeFacts.new_ok.
Qed.

Lemma fresh_shows (h : Z) :
  shows (mk (T := T) (V := V) h [] [] [] ([], []) ([], [])) [].
Proof. unfold shows. cbn. repeat split; reflexivity. Qed.

(** A fresh presenter after the points of a stream. *)
Lemma fresh_updates_shows (h : Z) (points : list (T * V * bool)) :
  (0 <= h)%Z ->
  shows (updates (mk h [] [] [] ([], []) ([], [])) points) points /\
  history_size (updates (mk (T := T) (V := V) h [] [] [] ([], []) ([], []))
                  points) = h.
Proof.
  intros Hh.
  destruct (updates_shows points (mk h [] [] [] ([], []) ([], [])) [] Hh
              (fresh_shows h)) as [Hsh Hhs].
  split; [exact Hsh | exact Hhs].
Qed.

End PresenterInvariant.

Section PresenterLists.
Context {T V : Type}.

Lemma flagged_app (xs ys : list (T * V * bool)) :
  flagged (xs ++ ys) = flagged xs ++ flagged ys.
Proof. unfold flagged. now rewrite filter_app, map_app. Qed.

Lemma flagged_length (xs : list (T * V * bool)) :
  (length (flagged xs) <= length xs)%nat.
Proof.
  unfold flagged. rewrite length_map.
  induction xs as [| p xs IH]; [reflexivity |].
  cbn [filter length]. destruct (snd p); cbn [length]; lia.
Qed.

Lemma flagged_in (xs : list (T * V * bool)) (p : T * V * bool) :
  In p xs -> snd p = true -> In (fst p) (flagged xs).
Proof.
  intros Hin Hp. unfold flagged. apply in_map, filter_In. now split.
Qed.

Lemma flagged_skipn (k : nat) (xs : list (T * V * bool)) :
  flagged (skipn k xs)
  = skipn (length (flagged (firstn k xs))) (flagged xs).
Proof.
  rewrite <- (firstn_skipn k xs) at 3.
  rewrite flagged_app, skipn_app, skipn_all, Nat.sub_diag. reflexivity.
Qed.

Lemma in_skipn_earlier {A : Type} (k1 k2 : nat) (l : list A) (x : A) :
  (k1 <= k2)%nat -> In x (skipn k2 l) -> In x (skipn k1 l).
Proof.
  intros Hle Hin.
  replace k2 with ((k2 - k1) + k1)%nat in Hin by lia.
  rewrite <- skipn_skipn in Hin.
  rewrite <- (firstn_skipn (k2 - k1) (skipn k1 l)).
  apply in_or_app. now right.
Qed.

(** A flagged point among the most recent points is among the most
    recent flagged points. *)
Lemma flagged_recent (n : nat) (xs : list (T * V * bool)) (p : T * V * bool) :
  In p (recent n xs) -> snd p = true -> In (fst p) (recent n (flagged xs)).
Proof.
  unfold recent. intros Hin Hp.
  pose proof (flagged_in _ p Hin Hp) as Hf.
  pose proof (flagged_length (skipn (length xs - n) xs)) as Hlen.
  rewrite flagged_skipn in Hf, Hlen.
  rewrite length_skipn in Hlen. rewrite (length_skipn (length xs - n) xs) in Hlen.
  apply in_skipn_earlier with (2 := Hf). lia.
Qed.

Lemma map_fst_points (ts : list T) (vs : list V) (bs : list bool) :
  length ts = length vs -> length bs = length vs ->
  map (fun p : T * V * bool => snd (fst p)) (points_of ts vs bs) = vs /\
  map (fun p : T * V * bool => fst (fst p)) (points_of ts vs bs) = ts /\
  map snd (points_of ts vs bs) = bs.
Proof.
  unfold points_of. revert vs bs.
  induction ts as [| t ts IH]; intros [| v vs] [| b bs] Hts Hbs;
    try discriminate; [repeat split; reflexivity |].
  cbn [length] in Hts, Hbs.
  destruct (IH vs bs ltac:(lia) ltac:(lia)) as (H1 & H2 & H3).
  cbn [combine map fst snd]. rewrite H1, H2, H3. repeat split; reflexivity.
Qed.

Lemma combine_split_id {A B : Type} (l : list (A * B)) :
  combine (fst (List.split l)) (snd (List.split l)) = l.
Proof.
  apply split_combine. now destruct (List.split l).
Qed.

End PresenterLists.

(** X14: after any number of [update] calls on a fresh presenter, the
    plot line holds the [history_size] most recent clock readings and the
    [history_size] most recent values, in order; its two coordinate lists
    have the same length, [min n history_size]. *)
Theorem line_shows_recent_points
    {T V : Type} (h : Z) (points : list (T * V * bool)) :
  (0 <= h)%Z ->
  (h <= PY_SSIZE_T_MAX)%Z ->
  exists vis0,
    StreamVisualizer.init h = inr vis0 /\
    let vis := StreamVisualizer.updates vis0 points in
    StreamVisualizer.line vis
    = (recent (Z.to_nat h) (map (fun p => fst (fst p)) points),
       recent (Z.to_nat h) (map (fun p => snd (fst p)) points)) /\
    StreamVisualizer.timestamps vis = fst (StreamVisualizer.line vis) /\
    StreamVisualizer.values vis = snd (StreamVisualizer.line vis) /\
    length (fst (StreamVisualizer.line vis))
    = Nat.min (length points) (Z.to_nat h) /\
    length (snd (StreamVisualizer.line vis))
    = Nat.min (length points) (Z.to_nat h).
Proof.
  intros Hh Hmax. eexists. split; [apply (fresh_init h Hh Hmax) |].
  cbv zeta.
  destruct (fresh_updates_shows h points Hh)
    as [(Hts & Hvs & _ & Hline & _) Hhs].
  rewrite Hhs in Hts, Hvs. rewrite Hline, Hts, Hvs. cbn [fst snd].
  rewrite !recent_length, !length_map. repeat split; reflexivity.
Qed.

Lemma line_shows_recent_points_witness :
  exists vis0,
    StreamVisualizer.init 2 = inr vis0 /\
    let vis :=
      StreamVisualizer.updates vis0
        [(1%nat, 10%nat, false); (2%nat, 20%nat, true); (3%nat, 30%nat, false)]
    in
    StreamVisualizer.line vis
    = (recent (Z.to_nat 2)
         (map (fun p => fst (fst p))
            [(1%nat, 10%nat, false); (2%nat, 20%nat, true);
             (3%nat, 30%nat, false)]),
       recent (Z.to_nat 2)
         (map (fun p => snd (fst p))
            [(1%nat, 10%nat, false); (2%nat, 20%nat, true);
             (3%nat, 30%nat, false)])) /\
    StreamVisualizer.timestamps vis = fst (StreamVisualizer.line vis) /\
    StreamVisualizer.values vis = snd (StreamVisualizer.line vis) /\
    length (fst (StreamVisualizer.line vis))
    = Nat.min 3 (Z.to_nat 2) /\
    length (snd (StreamVisualizer.line vis))
    = Nat.min 3 (Z.to_nat 2).
Proof.
  apply (line_shows_recent_points 2
           [(1%nat, 10%nat, false); (2%nat, 20%nat, true);
            (3%nat, 30%nat, false)]); [lia | size].
Defined.

(** X15: the presenter keeps the [history_size] most recent flagged
    points of the whole stream, and the anomaly markers are exactly
    these points, their coordinate lists of equal length; with no flagged
    point the markers stay empty. *)
Theorem markers_show_recent_flagged_points
    {T V : Type} (h : Z) (points : list (T * V * bool)) :
  (0 <= h)%Z ->
  (h <= PY_SSIZE_T_MAX)%Z ->
  exists vis0,
    StreamVisualizer.init h = inr vis0 /\
    let vis := StreamVisualizer.updates vis0 points in
    StreamVisualizer.anomalies vis = recent (Z.to_nat h) (flagged points) /\
    combine (fst (StreamVisualizer.anomaly_scatter vis))
            (snd (StreamVisualizer.anomaly_scatter vis))
    = StreamVisualizer.anomalies vis /\
    length (fst (StreamVisualizer.anomaly_scatter vis))
    = length (snd (StreamVisualizer.anomaly_scatter vis)) /\
    (length (StreamVisualizer.anomalies vis) <= Z.to_nat h)%nat.
Proof.
  intros Hh Hmax. eexists. split; [apply (fresh_init h Hh Hmax) |].
  cbv zeta.
  destruct (fresh_updates_shows h points Hh)
    as [(_ & _ & Han & _ & Hsc) Hhs].
  rewrite Hhs in Han. rewrite Hsc.
  split; [exact Han |]. split; [| split].
  - apply combine_split_id.
  - now rewrite length_fst_split, length_snd_split.
  - rewrite Han, recent_length. lia.
Qed.

Lemma markers_show_recent_flagged_points_witness :
  exists vis0,
    StreamVisualizer.init 1 = inr vis0 /\
    let vis :=
      StreamVisualizer.updates vis0
        [(1%nat, 10%nat, true); (2%nat, 20%nat, true); (3%nat, 30%nat, false)]
    in
    StreamVisualizer.anomalies vis
    = recent (Z.to_nat 1)
        (flagged [(1%nat, 10%nat, true); (2%nat, 20%nat, true);
                  (3%nat, 30%nat, false)]) /\
    combine (fst (StreamVisualizer.anomaly_scatter vis))
            (snd (StreamVisualizer.anomaly_scatter vis))
    = StreamVisualizer.anomalies vis /\
    length (fst (StreamVisualizer.anomaly_scatter vis))
    = length (snd (StreamVisualizer.anomaly_scatter vis)) /\
    (length (StreamVisualizer.anomalies vis) <= Z.to_nat 1)%nat.
Proof.
  apply (markers_show_recent_flagged_points 1
           [(1%nat, 10%nat, true); (2%nat, 20%nat, true);
            (3%nat, 30%nat, false)]); [lia | size].
Defined.

(** X16: every flagged point that is still on the plot line has its
    anomaly marker. *)
Theorem flagged_point_on_line_is_marked
    {T V : Type} (h : Z) (points : list (T * V * bool)) (p : T * V * bool) :
  (0 <= h)%Z ->
  (h <= PY_SSIZE_T_MAX)%Z ->
  In p (recent (Z.to_nat h) points) ->
  snd p = true ->
  exists vis0,
    StreamVisualizer.init h = inr vis0 /\
    let vis := StreamVisualizer.updates vis0 points in
    In (fst p)
       (combine (fst (StreamVisualizer.anomaly_scatter vis))
                (snd (StreamVisualizer.anomaly_scatter vis))).
Proof.
  intros Hh Hmax Hin Hp. eexists. split; [apply (fresh_init h Hh Hmax) |].
  cbv zeta.
  destruct (fresh_updates_shows h points Hh)
    as [(_ & _ & Han & _ & Hsc) Hhs].
  rewrite Hhs in Han. rewrite Hsc.
  rewrite combine_split_id, Han.
  now apply flagged_recent.
Qed.

Lemma flagged_point_on_line_is_marked_witness :
  exists vis0,
    StreamVisualizer.init 2 = inr vis0 /\
    let vis :=
      StreamVisualizer.updates vis0
        [(1%nat, 10%nat, true); (2%nat, 20%nat, true); (3%nat, 30%nat, false)]
    in
    In (fst (2%nat, 20%nat, true))
       (combine (fst (StreamVisualizer.anomaly_scatter vis))
                (snd (StreamVisualizer.anomaly_scatter vis))).
Proof.
  apply (flagged_point_on_line_is_marked 2
           [(1%nat, 10%nat, true); (2%nat, 20%nat, true);
            (3%nat, 30%nat, false)] (2%nat, 20%nat, true)).
  - lia.
  - size.
  - vm_compute. left. reflexivity.
  - reflexivity.
Defined.


(** * The driving loop *)

Section Loop.
Context {T : Type}.
Import DataStreamSimulator.

Lemma recent_recent {A : Type} (n m : nat) (xs : list A) :
  (n <= m)%nat -> recent n (recent m xs) = recent n xs.
Proof.
  intros Hle. unfold recent. rewrite length_skipn, skipn_skipn.
  f_equal. lia.
Qed.

Lemma flagged_none {V : Type} (points : list (T * V * bool)) :
  (forall p, In p points -> snd p = false) -> flagged points = [].
Proof.
  intros Hall. unfold flagged.
  induction points as [| p points IH]; [reflexivity |].
  cbn [filter]. rewrite (Hall p) by now left.
  apply IH. intros q Hq. apply Hall. now right.
Qed.

(** Any number of turns is the stream of the simulator, fed to the
    detector, the points handed to the presenter. *)
Lemma turns_compose (inputs : list (draws * T)) :
  forall st : Main.state T,
  (0 <= noise_level (Main.simulator st))%R ->
  exists vs sim',
    stream (Main.simulator st) (map fst inputs) = inr (vs, sim') /\
    length vs = length inputs /\
    Main.turns st inputs
    = inr (Main.mk sim'
             (snd (feed (Main.detector_ st) vs))
             (StreamVisualizer.updates (Main.visualizer st)
                (points_of (map snd inputs) vs
                   (fst (feed (Main.detector_ st) vs))))).
Proof.
  induction inputs as [| [rnd t] inputs IH]; intros st Hnl.
  - exists [], (Main.simulator st). destruct st as [sim det vis].
    repeat split; reflexivity.
  - destruct (get_next_value_ok (Main.simulator st) rnd Hnl) as (v & Hv & _).
    pose proof (call_pair (Main.detector_ st) v) as Hcall.
    set (b := fst (is_anomaly (Main.detector_ st) v)) in *.
    set (st1 := Main.mk (advance (Main.simulator st))
                  (push (Main.detector_ st) v)
                  (StreamVisualizer.update (Main.visualizer st) t v b)).
    destruct (IH st1 Hnl) as (vs & sim' & Hvs & Hlen & Hturns).
    cbn [Main.simulator Main.detector_ Main.visualizer st1] in Hvs, Hturns.
    exists (v :: vs), sim'.
    cbn [map fst snd stream Main.turns]. unfold Main.turn.
    rewrite Hv, Hvs, Hcall. fold st1. rewrite Hturns.
    cbn [feed]. rewrite Hcall.
    destruct (feed (push (Main.detector_ st) v) vs) as [bs d2].
    cbn [fst snd length]. split; [reflexivity |]. split; [now rewrite Hlen |].
    reflexivity.
Qed.

Lemma setup_ok :
  Main.setup (T := T)
  = inr (Main.mk (init "daily"%string (2 / 10) (2 / 1000))
           (mkDetector 50 (18 / 10)%R [])
           (StreamVisualizer.mk 500 [] [] [] ([], []) ([], []))).
Proof. reflexivity. Qed.

Lemma main_compose (inputs : list (draws * T)) :
  exists vs sim',
    stream (init "daily"%string (2 / 10) (2 / 1000)) (map fst inputs)
    = inr (vs, sim') /\
    length vs = length inputs /\
    Main.main inputs
    = inr (Main.mk sim'
             (snd (feed (mkDetector 50 (18 / 10)%R []) vs))
             (StreamVisualizer.updates
                (StreamVisualizer.mk 500 [] [] [] ([], []) ([], []))
                (points_of (map snd inputs) vs
                   (fst (feed (mkDetector 50 (18 / 10)%R []) vs))))).
Proof.
  unfold Main.main. rewrite setup_ok.
  apply (turns_compose inputs
           (Main.mk (init "daily"%string (2 / 10) (2 / 1000))
              (mkDetector 50 (18 / 10)%R [])
              (StreamVisualizer.mk 500 [] [] [] ([], []) ([], [])))).
  cbn. lra.
Qed.

End Loop.

(** X17: [main] never fails, and any number of its turns amounts to the
    three components in a row: the stream of the simulator, that stream
    fed to the detector, and the clock readings, values and answers
    handed to a fresh presenter. *)
Theorem main_is_stream_feed_updates
    {T : Type} (inputs : list (DataStreamSimulator.draws * T)) :
  exists vs sim' vis0,
    DataStreamSimulator.stream
      (DataStreamSimulator.init "daily"%string (2 / 10) (2 / 1000))
      (map fst inputs)
    = inr (vs, sim') /\
    StreamVisualizer.init 500 = inr vis0 /\
    Main.main inputs
    = inr (Main.mk sim'
             (snd (feed (mkDetector 50 (18 / 10)%R []) vs))
             (StreamVisualizer.updates vis0
                (points_of (map snd inputs) vs
                   (fst (feed (mkDetector 50 (18 / 10)%R []) vs))))).
Proof.
  destruct (main_compose inputs) as (vs & sim' & Hvs & _ & Hmain).
  exists vs, sim', (StreamVisualizer.mk 500 [] [] [] ([], []) ([], [])).
  repeat split; assumption || reflexivity.
Qed.

(** X18: in [main], no anomaly marker is drawn during the first 50
    turns, whatever the simulator produces, injected anomalies
    included: the detector is warming up. *)
Theorem main_marks_nothing_while_warming_up
    {T : Type} (inputs : list (DataStreamSimulator.draws * T)) :
  (length inputs <= 50)%nat ->
  exists st,
    Main.main inputs = inr st /\
    StreamVisualizer.anomalies (Main.visualizer st) = [] /\
    StreamVisualizer.anomaly_scatter (Main.visualizer st) = ([], []) /\
    length (values (Main.detector_ st)) = length inputs.
Proof.
  intros Hlen.
  destruct (main_compose inputs) as (vs & sim' & _ & Hvs & Hmain).
  eexists. split; [exact Hmain |].
  cbn [Main.visualizer Main.detector_].
  rewrite feed_warm by (cbn [values window_size length]; lia).
  destruct (fresh_updates_shows 500
              (points_of (map snd inputs) vs (repeat false (length vs)))
              ltac:(lia)) as [(_ & _ & Han & _ & Hsc) _].
  destruct (map_fst_points (map snd inputs) vs (repeat false (length vs)))
    as (_ & _ & Hflags);
    [now rewrite length_map | now rewrite repeat_length |].
  assert (Hnone : flagged (points_of (map snd inputs) vs
                             (repeat false (length vs))) = []).
  { apply flagged_none. intros p Hp.
    apply (in_map snd) in Hp. rewrite Hflags in Hp.
    now apply repeat_spec in Hp. }
  rewrite Hnone, recent_all in Han by (cbn [length]; lia).
  rewrite Hsc, Han. split; [reflexivity |]. split; [reflexivity |].
  rewrite fresh_feed by lia. cbn [values].
  rewrite recent_length. lia.
Qed.

Lemma main_marks_nothing_while_warming_up_witness :
  exists st,
    Main.main
      [(DataStreamSimulator.mkDraws 0 (1 / 100) 0 DataStreamSimulator.First,
        0%nat)]
    = inr st /\
    StreamVisualizer.anomalies (Main.visualizer st) = [] /\
    StreamVisualizer.anomaly_scatter (Main.visualizer st) = ([], []) /\
    length (values (Main.detector_ st)) = 1%nat.
Proof.
  apply (main_marks_nothing_while_warming_up
           [(DataStreamSimulator.mkDraws 0 (1 / 100) 0
               DataStreamSimulator.First, 0%nat)]).
  cbn. lia.
Defined.

(** X19: at every turn of [main] the window of the detector is the last
    50 values of the plot line, and the clock of the simulator counts
    the turns. *)
Theorem detector_window_is_end_of_line
    {T : Type} (inputs : list (DataStreamSimulator.draws * T)) :
  exists st,
    Main.main inputs = inr st /\
    values (Main.detector_ st)
    = recent 50 (snd (StreamVisualizer.line (Main.visualizer st))) /\
    DataStreamSimulator.time_index (Main.simulator st)
    = Z.of_nat (length inputs).
Proof.
  destruct (main_compose inputs) as (vs & sim' & Hstream & Hvs & Hmain).
  eexists. split; [exact Hmain |].
  cbn [Main.visualizer Main.detector_ Main.simulator].
  set (bs := fst (feed (mkDetector 50 (18 / 10)%R []) vs)).
  destruct (fresh_updates_shows 500 (points_of (map snd inputs) vs bs)
              ltac:(lia)) as [(_ & Hval & _ & Hline & _) Hh].
  destruct (map_fst_points (map snd inputs) vs bs) as (Hpv & _ & _);
    [now rewrite length_map | unfold bs; apply feed_results_length |].
  rewrite Hh, Hpv in Hval. rewrite Hline, Hval. cbn [snd].
  split.
  - rewrite fresh_feed by lia. cbn [values].
    change (Z.to_nat 50) with 50%nat.
    symmetry. apply recent_recent. change (Z.to_nat 500) with 500%nat. lia.
  - destruct (stream_ok "daily"%string (2 / 10)%R (2 / 1000)%R
                (map fst inputs) 0 ltac:(lra)) as (vs' & Hvs' & _ & _).
    unfold DataStreamSimulator.init in Hstream.
    rewrite Hvs' in Hstream. injection Hstream as _ <-.
    cbn [DataStreamSimulator.time_index]. rewrite length_map. lia.
Qed.
